(** * Weather lookup form (src/src/App.tsx): validation, the two dependent
      requests, forecast sampling and the unit toggle.

    The component is embedded as an event-driven state machine.  The state
    is what the hooks hold ([useState] in [WeatherApp] and [UnitProvider],
    Formik's [values] and [errors]) together with the submission handlers
    that are suspended at an [await].  An event is a keystroke in the input,
    a click on one of the two buttons, or the settling of a request. *)

From Stdlib Require Import NArith ZArith Strings.String Strings.Ascii List Lia Bool.
From Stdlib Require QArith.QArith_base.
From stdpp Require Import base list.

Import ListNotations.
#[local] Set Warnings "-register-all".

(** ** JavaScript values *)

(** A JavaScript string is a sequence of UTF-16 code units. *)
Definition code_unit := N.
Definition jsstring := list code_unit.

(** A string literal of the source (all of them are ASCII). *)
Definition lit (s : string) : jsstring :=
  List.map N_of_ascii (list_ascii_of_string s).

(** [a === b] on strings. *)
Fixpoint streq (a b : jsstring) : bool :=
  match a, b with
  | [], [] => true
  | x :: a', y :: b' => (x =? y)%N && streq a' b'
  | _, _ => false
  end.

(** ECMAScript WhiteSpace (TAB, VT, FF, ZWNBSP and the space separators)
    and LineTerminator; [String.prototype.trim] strips both. *)
Definition is_white_space (c : code_unit) : bool :=
  ((c =? 0x9) || (c =? 0xB) || (c =? 0xC) || (c =? 0x20) || (c =? 0xA0)
   || (c =? 0x1680) || ((0x2000 <=? c) && (c <=? 0x200A))
   || (c =? 0x202F) || (c =? 0x205F) || (c =? 0x3000) || (c =? 0xFEFF))%N.

Definition is_line_terminator (c : code_unit) : bool :=
  ((c =? 0xA) || (c =? 0xD) || (c =? 0x2028) || (c =? 0x2029))%N.

Definition strippable (c : code_unit) : bool :=
  is_white_space c || is_line_terminator c.

Fixpoint trimStart (s : jsstring) : jsstring :=
  match s with
  | [] => []
  | c :: t => if strippable c then trimStart t else s
  end.

Definition trimEnd (s : jsstring) : jsstring := rev (trimStart (rev s)).

(** [s.trim()] *)
Definition trim (s : jsstring) : jsstring := trimEnd (trimStart s).

(** A string is truthy when it is not empty. *)
Definition truthy (s : jsstring) : bool :=
  match s with [] => false | _ => true end.

(** The payloads are typed [any] in the source: parsed JSON.  Numbers are
    only carried from the response to the state, never computed with. *)
Inductive json : Type :=
| JNull
| JBool (b : bool)
| JNum (q : QArith_base.Q)
| JStr (s : jsstring)
| JArr (items : list json)
| JObj (fields : list (jsstring * json)).

(** A value of type [any]; [None] is [undefined]. *)
Definition any := option json.

Fixpoint own_property (key : jsstring) (fields : list (jsstring * json)) : any :=
  match fields with
  | [] => None
  | (k, v) :: rest => if streq k key then Some v else own_property key rest
  end.

(** [x.key].  The outer [None] is the TypeError thrown on [undefined] and
    [null].  It is used at the keys [list], [coord], [lat] and [lon] only,
    which primitives and arrays do not have. *)
Definition member (x : any) (key : jsstring) : option any :=
  match x with
  | None | Some JNull => None
  | Some (JObj fields) => Some (own_property key fields)
  | Some _ => Some None
  end.

(** [l.filter(cb)], where [cb] receives the element and its index. *)
Fixpoint filter_from {A} (cb : A -> nat -> bool) (idx : nat) (l : list A) : list A :=
  match l with
  | [] => []
  | x :: t =>
      if cb x idx then x :: filter_from cb (S idx) t
      else filter_from cb (S idx) t
  end.

Definition Array_filter {A} (cb : A -> nat -> bool) (l : list A) : list A :=
  filter_from cb 0 l.

(** [x.filter(cb)] on a value of type [any]: a TypeError unless [x] is an
    array (nothing else in a JSON payload has a callable [filter]). *)
Definition any_filter (x : any) (cb : json -> nat -> bool) : option (list json) :=
  match x with
  | Some (JArr items) => Some (Array_filter cb items)
  | _ => None
  end.

(** ** The libraries the component calls *)

(** Yup, [Yup.string().trim().required(msg)].  The cast applies the trim
    transform to a defined value; [required] rejects [undefined] and the
    empty string.  The result is the error message, if any. *)
Definition yup_trim (v : option jsstring) : option jsstring :=
  match v with
  | Some s => Some (trim s)
  | None => None
  end.

Definition yup_required (msg : jsstring) (v : option jsstring) : option jsstring :=
  match v with
  | None => Some msg
  | Some s => if length s =? 0 then Some msg else None
  end.

(** Formik hands an empty field to the schema as [undefined]. *)
Definition prepareDataForValidation (v : jsstring) : option jsstring :=
  match v with
  | [] => None
  | _ => Some v
  end.

(** What the network does with a request. *)
Inductive outcome : Type :=
| NetworkError
| Response (status : Z) (body : json).

Record AxiosResponse : Type := { data : json }.

(** [axios.get]: the promise is fulfilled for a 2xx status and rejected
    otherwise (the default [validateStatus]); [None] is the rejection. *)
Definition axios_settle (o : outcome) : option AxiosResponse :=
  match o with
  | NetworkError => None
  | Response status body =>
      if ((200 <=? status) && (status <? 300))%Z
      then Some {| data := body |}
      else None
  end.

(** ** The component *)

Definition metric : jsstring := lit "metric".
Definition imperial : jsstring := lit "imperial".

(** Line 96.  The commented-out alternative reads the key from the
    environment, where it can be [undefined]; the handler is therefore
    embedded over any key, and the component instantiates it with this
    one. *)
Definition API_TOKEN : option jsstring :=
  Some (lit "532e524ebf5657e44968d0cc21a1d155").

Definition MSG_REQUIRED : jsstring := lit "Please enter a city name.".
Definition MSG_API_KEY : jsstring :=
  lit "API key is missing. Please check your .env configuration.".
Definition MSG_FETCH : jsstring :=
  lit "Oops! Couldn't retrieve data. Please double-check the city name or try again later.".

(** [!token] *)
Definition falsy (token : option jsstring) : bool :=
  match token with
  | Some s => negb (truthy s)
  | None => true
  end.

(** A key inside a template literal. *)
Definition interpolate (token : option jsstring) : jsstring :=
  match token with
  | Some s => s
  | None => lit "undefined"
  end.

Record WeatherData : Type := { now : json; future : list json }.
Record Location : Type := { lat : any; lon : any }.

(** The three [useState] cells of [WeatherApp]. *)
Record Hooks : Type := {
  weather : option WeatherData;
  location : Location;
  fetchError : jsstring
}.

Inductive action : Type :=
| setWeather (w : WeatherData)
| setLocation (l : Location)
| setFetchError (e : jsstring).

Definition apply_action (a : action) (h : Hooks) : Hooks :=
  match a with
  | setWeather w =>
      {| weather := Some w; location := location h; fetchError := fetchError h |}
  | setLocation l =>
      {| weather := weather h; location := l; fetchError := fetchError h |}
  | setFetchError e =>
      {| weather := weather h; location := location h; fetchError := e |}
  end.

(** An async handler: it calls setters, or suspends at an [await] of
    [axios.get url] and resumes with the settled promise. *)
Inductive prog : Type :=
| Return
| Call (a : action) (k : prog)
| Await (url : jsstring) (k : option AxiosResponse -> prog).

Definition weather_url (token : option jsstring) (cityName unit : jsstring) : jsstring :=
  lit "https://api.openweathermap.org/data/2.5/weather?q=" ++ cityName
  ++ lit "&appid=" ++ interpolate token ++ lit "&units=" ++ unit.

Definition forecast_url (token : option jsstring) (cityName unit : jsstring) : jsstring :=
  lit "https://api.openweathermap.org/data/2.5/forecast?q=" ++ cityName
  ++ lit "&appid=" ++ interpolate token ++ lit "&units=" ++ unit.

(** Line 129: [list.filter((_, idx) => idx % 8 === 0)]. *)
Definition every_eighth {A} (_ : A) (idx : nat) : bool := idx mod 8 =? 0.

Definition sampler {A} (l : list A) : list A := Array_filter every_eighth l.

(** The [catch] block, lines 142-144. *)
Definition catch_apiErr : prog := Call (setFetchError MSG_FETCH) Return.

(** Line 129, [forecastData.data.list.filter(...)]; [None] when the chain
    throws. *)
Definition dailyData_of (forecastData : AxiosResponse) : option (list json) :=
  match member (Some (data forecastData)) (lit "list") with
  | Some list => any_filter list every_eighth
  | None => None
  end.

(** Lines 136-139, the argument of [setLocation]; [None] when one of the
    two chains [currentData.data.coord.lat] and [.lon] throws. *)
Definition coord_of (currentData : AxiosResponse) : option Location :=
  match member (Some (data currentData)) (lit "coord") with
  | Some coord =>
      match member coord (lit "lat"), member coord (lit "lon") with
      | Some la, Some lo => Some {| lat := la; lon := lo |}
      | _, _ => None
      end
  | None => None
  end.

(** Lines 129-141, after the second [await].  An argument that throws
    does so before the setter it feeds is called. *)
Definition afterForecast (currentData : AxiosResponse)
    (settled : option AxiosResponse) : prog :=
  match settled with
  | None => catch_apiErr
  | Some forecastData =>
      match dailyData_of forecastData with
      | None => catch_apiErr
      | Some dailyData =>
          Call (setWeather {| now := data currentData; future := dailyData |})
            match coord_of currentData with
            | None => catch_apiErr
            | Some coord =>
                Call (setLocation coord) (Call (setFetchError []) Return)
            end
      end
  end.

(** Lines 125-127, after the first [await]. *)
Definition afterCurrent (token : option jsstring) (unit cityName : jsstring)
    (settled : option AxiosResponse) : prog :=
  match settled with
  | None => catch_apiErr
  | Some currentData =>
      Await (forecast_url token cityName unit) (afterForecast currentData)
  end.

(** Lines 115-145.  [unit] is the value the handler closed over. *)
Definition onSubmit_with (token : option jsstring) (unit cityName : jsstring) : prog :=
  if falsy token then Call (setFetchError MSG_API_KEY) Return
  else Await (weather_url token cityName unit) (afterCurrent token unit cityName).

Definition onSubmit : jsstring -> jsstring -> prog := onSubmit_with API_TOKEN.

(** Line 214. *)
Definition toggle (prev : jsstring) : jsstring :=
  if streq prev metric then imperial else metric.

(** Lines 112-114, as Formik runs the schema. *)
Definition validate (cityName : jsstring) : option jsstring :=
  yup_required MSG_REQUIRED (yup_trim (prepareDataForValidation cityName)).

Record Formik : Type := {
  values_cityName : jsstring;
  errors_cityName : option jsstring
}.

(** A handler suspended at an [await]: the request it waits for and what
    it does with the settled promise. *)
Definition Pending : Type := jsstring * (option AxiosResponse -> prog).

Record AppState : Type := {
  unit : jsstring;
  hooks : Hooks;
  formik : Formik;
  inflight : list Pending
}.

Definition initial : AppState :=
  {| unit := metric;
     hooks := {| weather := None;
                 location := {| lat := Some (JNum (QArith_base.Qmake 0 1));
                                lon := Some (JNum (QArith_base.Qmake 0 1)) |};
                 fetchError := [] |};
     formik := {| values_cityName := []; errors_cityName := None |};
     inflight := [] |}.

(** Runs a handler up to its next [await], or to its end. *)
Fixpoint advance (p : prog) (h : Hooks) : Hooks * option Pending :=
  match p with
  | Return => (h, None)
  | Call a k => advance k (apply_action a h)
  | Await url k => (h, Some (url, k))
  end.

Inductive event : Type :=
| Change (text : jsstring)
| Submit
| ToggleClick
| Settle (i : nat) (o : outcome).

Definition request_of (p : option Pending) : list jsstring :=
  match p with
  | Some (url, _) => [url]
  | None => []
  end.

(** One event; the second component lists the requests sent during it.
    Formik validates on change and on submit, and calls [onSubmit] with
    its [values] only when the schema reports no error. *)
Definition step_with (token : option jsstring) (st : AppState) (ev : event)
    : AppState * list jsstring :=
  match ev with
  | Change text =>
      ({| unit := unit st; hooks := hooks st;
          formik := {| values_cityName := text; errors_cityName := validate text |};
          inflight := inflight st |}, [])
  | ToggleClick =>
      ({| unit := toggle (unit st); hooks := hooks st; formik := formik st;
          inflight := inflight st |}, [])
  | Submit =>
      let cityName := values_cityName (formik st) in
      match validate cityName with
      | Some msg =>
          ({| unit := unit st; hooks := hooks st;
              formik := {| values_cityName := cityName; errors_cityName := Some msg |};
              inflight := inflight st |}, [])
      | None =>
          let '(h, p) := advance (onSubmit_with token (unit st) cityName) (hooks st) in
          ({| unit := unit st; hooks := h;
              formik := {| values_cityName := cityName; errors_cityName := None |};
              inflight := inflight st ++ option_list p |}, request_of p)
      end
  | Settle i o =>
      match inflight st !! i with
      | None => (st, [])
      | Some (_, k) =>
          let '(h, p) := advance (k (axios_settle o)) (hooks st) in
          ({| unit := unit st; hooks := h; formik := formik st;
              inflight := match p with
                          | Some p' => <[i := p']> (inflight st)
                          | None => delete i (inflight st)
                          end |}, request_of p)
      end
  end.

Definition step : AppState -> event -> AppState * list jsstring :=
  step_with API_TOKEN.

Fixpoint run_with (token : option jsstring) (st : AppState) (evs : list event)
    : AppState * list jsstring :=
  match evs with
  | [] => (st, [])
  | ev :: rest =>
      let '(st1, sent1) := step_with token st ev in
      let '(st2, sent2) := run_with token st1 rest in
      (st2, sent1 ++ sent2)
  end.

Definition run : AppState -> list event -> AppState * list jsstring :=
  run_with API_TOKEN.

(** Line 183, [unit === "metric" ? "C" : "F"]. *)
Definition suffix_of (unit : jsstring) : jsstring :=
  if streq unit metric then lit "C" else lit "F".

(** What the expressions of the render outside the snapshot block evaluate
    to: the two error texts, the label of the toggle and the suffix of line
    183.  They never throw.  They are on the screen when the whole render
    completes, which [screen_of] below decides. *)
Record View : Type := {
  formErrorText : option jsstring;
  toggleLabel : jsstring;
  fetchErrorText : option jsstring;
  tempSuffix : option jsstring
}.

Definition render (st : AppState) : View :=
  {| formErrorText :=
       match errors_cityName (formik st) with
       | Some e => if truthy e then Some e else None
       | None => None
       end;
     toggleLabel :=
       lit "Change to " ++
       (if streq (unit st) metric then lit "Fahrenheit" else lit "Celsius");
     fetchErrorText :=
       if truthy (fetchError (hooks st)) then Some (fetchError (hooks st)) else None;
     tempSuffix :=
       match weather (hooks st) with
       | Some _ => Some (suffix_of (unit st))
       | None => None
       end |}.

(** The states the component goes through, whatever the user and the
    network do. *)
Inductive reachable : AppState -> Prop :=
| reachable_initial : reachable initial
| reachable_step st ev : reachable st -> reachable (fst (step st ev)).

(** What the handlers suspended in a reachable state can be. *)
Definition handler_of_component (p : Pending) : Prop :=
  (exists unit cityName, snd p = afterCurrent API_TOKEN unit cityName)
  \/ (exists currentData, snd p = afterForecast currentData).

(** Sample data for the examples. *)
Definition num (n d : Z) : json := JNum (QArith_base.Qmake n (Z.to_pos d)).

Definition london : jsstring := lit "London".

Definition london_now : json :=
  JObj [(lit "coord", JObj [(lit "lon", num (-1257) 10000);
                            (lit "lat", num 515085 10000)]);
        (lit "main", JObj [(lit "temp", num 1231 100)]);
        (lit "name", JStr london)].

Definition forecast_entry (n : Z) : json :=
  JObj [(lit "main", JObj [(lit "temp", num n 1)])].

Definition london_forecast : json :=
  JObj [(lit "list",
         JArr (List.map forecast_entry
                 [10; 11; 12; 13; 14; 13; 12; 11; 9; 10]%Z))].

Definition not_found : outcome :=
  Response 404 (JObj [(lit "cod", JStr (lit "404"));
                      (lit "message", JStr (lit "city not found"))]).

Definition qwxyzzz : jsstring := lit "Qwxyzzz".

(** The field holds a city name and nothing has been submitted yet. *)
Definition typed (cityName : jsstring) : AppState :=
  fst (step initial (Change cityName)).

(** A submission in a state with [n] suspended handlers, the two
    responses [o1] and [o2] to its requests, and [a], [b] and [c] clicks on
    the toggle after the submission, the first and the second response. *)
Definition fetch_events (n a b c : nat) (o1 o2 : outcome) : list event :=
  (Submit :: repeat ToggleClick a ++ Settle n o1 :: repeat ToggleClick b)
  ++ Settle n o2 :: repeat ToggleClick c.

(** ** The snapshot block of the view (lines 175-206)

    The block is rendered when [weather] is set.  Its expressions read the
    stored payload; what is embedded is the values they read, before the
    template literal, React and [Date] turn them into text, and the
    TypeError of a chain that meets [undefined] or [null].  The map
    components receive the stored coordinates as props; what they do with
    them is the map library's and is taken up by [screen_of]. *)

(** [x[0]]: the first element of an array, the first code unit of a
    string, the property ["0"] of an object. *)
Definition index0 (x : any) : option any :=
  match x with
  | None | Some JNull => None
  | Some (JArr items) => Some (items !! 0)
  | Some (JStr s) =>
      Some match s with
           | [] => None
           | c :: _ => Some (JStr [c])
           end
  | Some (JObj fields) => Some (own_property (lit "0") fields)
  | Some _ => Some None
  end.

Record Header : Type := {
  icon : any;
  alt : any;
  heading_name : any;
  heading_temp : any
}.

(** Lines 179-183: [now.weather[0].icon], [now.weather[0].description],
    [now.name] and [now.main.temp]. *)
Definition header_of (now : json) : option Header :=
  match member (Some now) (lit "weather") with
  | None => None
  | Some w =>
      match index0 w with
      | None => None
      | Some first =>
          match member first (lit "icon"), member first (lit "description"),
                member (Some now) (lit "name"), member (Some now) (lit "main") with
          | Some i, Some d, Some n, Some main =>
              match member main (lit "temp") with
              | Some t =>
                  Some {| icon := i; alt := d; heading_name := n; heading_temp := t |}
              | None => None
              end
          | _, _, _, _ => None
          end
      end
  end.

Record ChartPoint : Type := { point_dt_txt : any; point_temp : any }.

(** Lines 187-190, the callback of [weather.future.map]: [item.dt_txt]
    and [item.main.temp]. *)
Definition chart_point (item : json) : option ChartPoint :=
  match member (Some item) (lit "dt_txt"), member (Some item) (lit "main") with
  | Some d, Some main =>
      match member main (lit "temp") with
      | Some t => Some {| point_dt_txt := d; point_temp := t |}
      | None => None
      end
  | _, _ => None
  end.

(** [weather.future.map(...)]: a callback that throws ends the render. *)
Fixpoint chart_data (future : list json) : option (list ChartPoint) :=
  match future with
  | [] => Some []
  | item :: rest =>
      match chart_point item, chart_data rest with
      | Some p, Some ps => Some (p :: ps)
      | _, _ => None
      end
  end.

(** [center_prop] and [position_prop] are the props [center] of
    [MapContainer] and [position] of [Marker], lines 198 and 203. *)
Record Details : Type := {
  header : Header;
  heading_suffix : jsstring;
  chart : list ChartPoint;
  center_prop : Location;
  position_prop : Location
}.

(** The evaluation of the block's own expressions: none to evaluate, a
    TypeError, or their values. *)
Inductive snapshot_block : Type :=
| NoSnapshot
| RenderError
| Block (d : Details).

Definition render_snapshot (st : AppState) : snapshot_block :=
  match weather (hooks st) with
  | None => NoSnapshot
  | Some w =>
      match header_of (now w), chart_data (future w) with
      | Some h, Some points =>
          Block {| header := h;
                   heading_suffix := suffix_of (unit st);
                   chart := points;
                   center_prop := location (hooks st);
                   position_prop := location (hooks st) |}
      | _, _ => RenderError
      end
  end.

(** ** What is on the screen

    The component has no error boundary: when its render throws, React
    removes the whole tree, nothing is shown any more and no event of the
    user reaches the component again. *)

(** The map library on the pair [lat, lon] it is handed as centre and as
    marker position.  It builds a point from two numbers; it throws
    "Invalid LatLng object" when [lat] is [undefined], or when [lon] is
    and [lat] is a number, a string or a boolean.  What it does with the
    other values (coercions of strings, [null], arrays and objects) is
    not embedded. *)
Inductive map_verdict : Type :=
| MapAccepts
| MapThrows
| MapUndetermined.

Definition latLng (lat lon : any) : map_verdict :=
  match lat, lon with
  | Some (JNum _), Some (JNum _) => MapAccepts
  | None, _ => MapThrows
  | Some (JNum _), None | Some (JStr _), None | Some (JBool _), None => MapThrows
  | _, _ => MapUndetermined
  end.

(** [Shown v block]: the render completes and the screen shows [v] and,
    when [weather] is set, the block.  [Blank]: the render throws and
    nothing is shown.  [Undetermined]: the map library decides. *)
Inductive screen : Type :=
| Shown (v : View) (block : option Details)
| Blank
| Undetermined.

Definition screen_of (st : AppState) : screen :=
  match render_snapshot st with
  | NoSnapshot => Shown (render st) None
  | RenderError => Blank
  | Block d =>
      match latLng (lat (center_prop d)) (lon (center_prop d)) with
      | MapAccepts => Shown (render st) (Some d)
      | MapThrows => Blank
      | MapUndetermined => Undetermined
      end
  end.

Definition mounted (st : AppState) : bool :=
  match screen_of st with
  | Shown _ _ => true
  | _ => false
  end.

(** The screen after the events [evs], delivered one by one for as long
    as the component is mounted. *)
Fixpoint screen_after (st : AppState) (evs : list event) : screen :=
  match screen_of st, evs with
  | Shown _ _, ev :: rest => screen_after (fst (step st ev)) rest
  | s, _ => s
  end.

Definition shown_view (s : screen) : option View :=
  match s with
  | Shown v _ => Some v
  | _ => None
  end.

Definition shown_block (s : screen) : option Details :=
  match s with
  | Shown _ block => block
  | _ => None
  end.

(** ** Counting the events of a run *)

Definition is_Submit (ev : event) : bool :=
  match ev with Submit => true | _ => false end.

Definition is_ToggleClick (ev : event) : bool :=
  match ev with ToggleClick => true | _ => false end.

(** The form has been typed into or submitted. *)
Definition touches_form (ev : event) : bool :=
  match ev with Change _ | Submit => true | _ => false end.

Definition submissions (evs : list event) : nat := length (List.filter is_Submit evs).
Definition clicks (evs : list event) : nat := length (List.filter is_ToggleClick evs).

(** The text of the field after [evs], when it held [text] before. *)
Fixpoint last_change (text : jsstring) (evs : list event) : jsstring :=
  match evs with
  | [] => text
  | Change text' :: rest => last_change text' rest
  | _ :: rest => last_change text rest
  end.

(** ** The handlers the component suspends *)

Definition is_unit (u : jsstring) : Prop := u = metric \/ u = imperial.

(** A handler of the component between its two requests, or after the
    second: the request it waits for is the one its closure was built
    for. *)
Inductive component_pending : Pending -> Prop :=
| pending_current unit cityName :
    is_unit unit -> validate cityName = None ->
    component_pending (weather_url API_TOKEN cityName unit,
                       afterCurrent API_TOKEN unit cityName)
| pending_forecast unit cityName currentData :
    is_unit unit -> validate cityName = None ->
    component_pending (forecast_url API_TOKEN cityName unit,
                       afterForecast currentData).

(** A request of the component: one of the two endpoints, with its key,
    a city name that passed validation and one of the two units. *)
Definition component_request (url : jsstring) : Prop :=
  exists unit cityName,
    is_unit unit /\ validate cityName = None
    /\ (url = weather_url API_TOKEN cityName unit
        \/ url = forecast_url API_TOKEN cityName unit).

(** [owed l n]: the handlers of [l] have [n] requests left to send between
    them, one for each handler that waits for the current conditions. *)
Inductive owed : list Pending -> nat -> Prop :=
| owed_nil : owed [] 0
| owed_current url token unit cityName l n :
    owed l n -> owed ((url, afterCurrent token unit cityName) :: l) (S n)
| owed_forecast url currentData l n :
    owed l n -> owed ((url, afterForecast currentData) :: l) n.

(** More sample data. *)
Definition paris : jsstring := lit "Paris".

Definition clear_sky : json :=
  JObj [(lit "icon", JStr (lit "01d")); (lit "description", JStr (lit "clear sky"))].

Definition paris_now : json :=
  JObj [(lit "coord", JObj [(lit "lon", num 23488 10000);
                            (lit "lat", num 488534 10000)]);
        (lit "weather", JArr [clear_sky]);
        (lit "main", JObj [(lit "temp", num 187 10)]);
        (lit "name", JStr paris)].

Definition dated_entry (day : string) (t : Z) : json :=
  JObj [(lit "dt_txt", JStr (lit day));
        (lit "main", JObj [(lit "temp", num t 1)])].

Definition paris_forecast : json :=
  JObj [(lit "list",
         JArr [dated_entry "2025-06-01 00:00:00" 15; JNull; JNull; JNull;
               JNull; JNull; JNull; JNull;
               dated_entry "2025-06-02 00:00:00" 17; JNull])].

(** Nine three-hourly entries: a day and the first entry of the next. *)
Definition paris_days : json :=
  JObj [(lit "list",
         JArr [dated_entry "2025-06-01 00:00:00" 15; dated_entry "2025-06-01 03:00:00" 14;
               dated_entry "2025-06-01 06:00:00" 14; dated_entry "2025-06-01 09:00:00" 17;
               dated_entry "2025-06-01 12:00:00" 21; dated_entry "2025-06-01 15:00:00" 23;
               dated_entry "2025-06-01 18:00:00" 20; dated_entry "2025-06-01 21:00:00" 17;
               dated_entry "2025-06-02 00:00:00" 16])].


(** A failed lookup, then the lookup of Paris, still waiting for its
    first response. *)
Definition paris_retry_in_progress : list event :=
  [Change qwxyzzz; Submit; Settle 0 not_found; Change paris; Submit].

(** The same, with the two responses for Paris. *)
Definition paris_retry_completed : list event :=
  paris_retry_in_progress
  ++ [Settle 0 (Response 200 paris_now); Settle 0 (Response 200 paris_days)].

(** Paris is on the screen. *)
Definition paris_shown : AppState :=
  fst (run initial [Change paris; Submit;
                    Settle 0 (Response 200 paris_now);
                    Settle 0 (Response 200 paris_days)]).

(** Paris is submitted and its current conditions have arrived. *)
Definition paris_awaits_forecast : AppState :=
  fst (run initial [Change paris; Submit; Settle 0 (Response 200 paris_now)]).

(** What the block shows for Paris. *)
Definition paris_header : Header :=
  {| icon := Some (JStr (lit "01d"));
     alt := Some (JStr (lit "clear sky"));
     heading_name := Some (JStr paris);
     heading_temp := Some (num 187 10) |}.

Definition paris_points : list ChartPoint :=
  [ {| point_dt_txt := Some (JStr (lit "2025-06-01 00:00:00"));
       point_temp := Some (num 15 1) |};
    {| point_dt_txt := Some (JStr (lit "2025-06-02 00:00:00"));
       point_temp := Some (num 16 1) |} ].

Definition paris_coord : Location :=
  {| lat := Some (num 488534 10000); lon := Some (num 23488 10000) |}.

(** A current-conditions payload without [coord]. *)
Definition nowhere_now : json :=
  JObj [(lit "weather", JArr [clear_sky]);
        (lit "main", JObj [(lit "temp", num 187 10)]);
        (lit "name", JStr paris)].

(** London is submitted; then Paris is typed and the unit toggled while
    the request for London is in flight. *)
Definition london_in_flight : AppState :=
  fst (run initial [Change london; Submit; Change paris; ToggleClick]).

(** London, then Paris are submitted, and both have their current
    conditions: two handlers wait for a forecast. *)
Definition two_forecasts_in_flight : AppState :=
  fst (run initial [Change london; Submit; Change paris; Submit;
                    Settle 0 (Response 200 london_now);
                    Settle 1 (Response 200 paris_now)]).

(** Rewrites with a lemma about a submission and clicks on the toggle,
    taken at no click at all. *)
Ltac without_clicks H :=
  let E := fresh "E" in
  pose proof H as E; cbn [fetch_events repeat app Nat.iter nat_rect] in E;
  unfold run; rewrite E; clear E.

(** * Properties *)

(** ** Strings *)

Lemma streq_eq (a b : jsstring) : streq a b = true <-> a = b.
Proof.
  revert b; induction a as [|x a IH]; intros [|y b]; simpl; try easy.
  rewrite andb_true_iff, N.eqb_eq, IH.
  split; [intros [-> ->]; reflexivity | intros [= -> ->]; auto].
Qed.

Lemma streq_refl (a : jsstring) : streq a a = true.
Proof. apply streq_eq; reflexivity. Qed.

Lemma trimStart_nil (s : jsstring) :
  trimStart s = [] <-> forallb strippable s = true.
Proof.
  induction s as [|c s IH]; simpl; [easy|].
  destruct (strippable c); simpl; [exact IH | easy].
Qed.

Lemma trimStart_head (s : jsstring) c t :
  trimStart s = c :: t -> strippable c = false.
Proof.
  induction s as [|d s IH]; simpl; [easy|].
  destruct (strippable d) eqn:E; [exact IH | intros [= <- _]; exact E].
Qed.

Lemma forallb_rev {A} (f : A -> bool) (l : list A) :
  forallb f (rev l) = forallb f l.
Proof.
  induction l as [|x l IH]; simpl; [reflexivity|].
  rewrite forallb_app, IH; simpl. rewrite andb_true_r. apply andb_comm.
Qed.

(** The trimmed form is empty exactly for the strings made of white space
    and line terminators only (the empty string among them). *)
Lemma trim_nil (s : jsstring) :
  trim s = [] <-> forallb strippable s = true.
Proof.
  unfold trim, trimEnd. rewrite <- trimStart_nil.
  split.
  - intros H. apply (f_equal (@rev _)) in H. rewrite rev_involutive in H.
    simpl in H. apply trimStart_nil in H. rewrite forallb_rev in H.
    destruct (trimStart s) as [|c t] eqn:E; [reflexivity|].
    apply trimStart_head in E. simpl in H. rewrite E in H. discriminate.
  - intros ->. reflexivity.
Qed.

Lemma validate_trim (s : jsstring) :
  validate s = if truthy (trim s) then None else Some MSG_REQUIRED.
Proof.
  unfold validate. destruct s as [|c s]; [reflexivity|].
  unfold prepareDataForValidation, yup_trim, yup_required.
  destruct (trim (c :: s)); reflexivity.
Qed.

(** ** Sampling *)

Lemma filter_from_every_eighth {A} (l : list A) :
  forall k r q i, r < 8 -> k + r = 8 * q ->
  filter_from every_eighth k l !! i = l !! (r + 8 * i).
Proof.
  induction l as [|x l IH]; intros k r q i Hr Hk; [reflexivity|].
  cbn [filter_from]. unfold every_eighth at 1.
  destruct (Nat.eqb_spec (k mod 8) 0) as [E|E].
  - apply Nat.Div0.mod_divides in E as [c Hc].
    assert (r = 0) as -> by lia.
    destruct i as [|j]; [reflexivity|].
    replace (0 + 8 * S j) with (S (7 + 8 * j)) by lia.
    change (filter_from every_eighth (S k) l !! j = l !! (7 + 8 * j)).
    apply IH with (q := S c); lia.
  - destruct r as [|r'].
    + exfalso. apply E. apply Nat.Div0.mod_divides. exists q. lia.
    + change (filter_from every_eighth (S k) l !! i = l !! (r' + 8 * i)).
      apply IH with (q := q); lia.
Qed.

Lemma sampler_lookup {A} (l : list A) (i : nat) :
  sampler l !! i = l !! (i * 8).
Proof.
  unfold sampler, Array_filter.
  rewrite (filter_from_every_eighth l 0 0 0 i) by lia.
  f_equal; lia.
Qed.

Lemma sampler_length {A} (l : list A) :
  length (sampler l) = (length l + 7) / 8.
Proof.
  pose proof (sampler_lookup l (length (sampler l))) as Hend.
  rewrite (lookup_ge_None_2 (sampler l)) in Hend by lia.
  symmetry in Hend. apply lookup_ge_None_1 in Hend.
  assert (length (sampler l) = 0 \/ (length (sampler l) - 1) * 8 < length l) as Hlast.
  { destruct (length (sampler l)) as [|n] eqn:E; [left; reflexivity | right].
    pose proof (sampler_lookup l n) as Hn.
    destruct (lookup_lt_is_Some_2 (sampler l) n) as [x Hx]; [lia|].
    rewrite Hx in Hn. symmetry in Hn. apply lookup_lt_Some in Hn.
    replace (S n - 1) with n by lia. exact Hn. }
  apply Nat.div_unique with (r := length l + 7 - 8 * length (sampler l)); lia.
Qed.

(** ** The handler, piece by piece *)

Lemma advance_onSubmit token unit cityName h :
  falsy token = false ->
  advance (onSubmit_with token unit cityName) h =
  (h, Some (weather_url token cityName unit, afterCurrent token unit cityName)).
Proof. intros H. unfold onSubmit_with. rewrite H. reflexivity. Qed.

Lemma advance_onSubmit_no_key token unit cityName h :
  falsy token = true ->
  advance (onSubmit_with token unit cityName) h =
  (apply_action (setFetchError MSG_API_KEY) h, None).
Proof. intros H. unfold onSubmit_with. rewrite H. reflexivity. Qed.

Lemma advance_afterForecast_ok r1 r2 dailyData coord h :
  dailyData_of r2 = Some dailyData ->
  coord_of r1 = Some coord ->
  advance (afterForecast r1 (Some r2)) h =
  ({| weather := Some {| now := data r1; future := dailyData |};
      location := coord;
      fetchError := [] |}, None).
Proof. intros Hd Hc. unfold afterForecast. rewrite Hd, Hc. reflexivity. Qed.

(** A current-conditions payload without [coord] makes the argument of
    [setLocation] throw after [setWeather] has been called: the snapshot is
    replaced and the failure message is set. *)
Lemma advance_afterForecast_no_coord r1 r2 dailyData h :
  dailyData_of r2 = Some dailyData ->
  coord_of r1 = None ->
  advance (afterForecast r1 (Some r2)) h =
  ({| weather := Some {| now := data r1; future := dailyData |};
      location := location h;
      fetchError := MSG_FETCH |}, None).
Proof. intros Hd Hc. unfold afterForecast. rewrite Hd, Hc. reflexivity. Qed.

Lemma API_TOKEN_present : falsy API_TOKEN = false.
Proof. reflexivity. Qed.

Lemma axios_settle_rejected (o : outcome) :
  axios_settle o = None <->
  match o with
  | NetworkError => True
  | Response status _ => (status < 200 \/ 300 <= status)%Z
  end.
Proof.
  destruct o as [|status body]; simpl; [easy|].
  destruct (Z.leb_spec 200 status) as [Hlo|Hlo],
           (Z.ltb_spec status 300) as [Hhi|Hhi]; simpl;
    split; intros Hs; try easy; lia.
Qed.

(** ** Single events *)

Section Steps.
Variable token : option jsstring.
Variable st : AppState.

Lemma step_Submit_invalid msg :
  validate (values_cityName (formik st)) = Some msg ->
  step_with token st Submit =
  ({| unit := unit st; hooks := hooks st;
      formik := {| values_cityName := values_cityName (formik st);
                   errors_cityName := Some msg |};
      inflight := inflight st |}, []).
Proof. intros H. unfold step_with. rewrite H. reflexivity. Qed.

Lemma step_Submit_valid :
  validate (values_cityName (formik st)) = None ->
  falsy token = false ->
  step_with token st Submit =
  ({| unit := unit st; hooks := hooks st;
      formik := {| values_cityName := values_cityName (formik st);
                   errors_cityName := None |};
      inflight :=
        inflight st ++
        [(weather_url token (values_cityName (formik st)) (unit st),
          afterCurrent token (unit st) (values_cityName (formik st)))] |},
   [weather_url token (values_cityName (formik st)) (unit st)]).
Proof.
  intros H Ht. unfold step_with.
  rewrite H, advance_onSubmit by exact Ht. reflexivity.
Qed.

Lemma step_Submit_no_key :
  validate (values_cityName (formik st)) = None ->
  falsy token = true ->
  step_with token st Submit =
  ({| unit := unit st;
      hooks := {| weather := weather (hooks st);
                  location := location (hooks st);
                  fetchError := MSG_API_KEY |};
      formik := {| values_cityName := values_cityName (formik st);
                   errors_cityName := None |};
      inflight := inflight st |}, []).
Proof.
  intros H Ht. unfold step_with.
  rewrite H, advance_onSubmit_no_key by exact Ht.
  simpl. rewrite app_nil_r. reflexivity.
Qed.

Variable i : nat.
Variable url : jsstring.
Variable o : outcome.

Lemma step_Settle_current_rejected tok u c :
  inflight st !! i = Some (url, afterCurrent tok u c) ->
  axios_settle o = None ->
  step_with token st (Settle i o) =
  ({| unit := unit st;
      hooks := {| weather := weather (hooks st);
                  location := location (hooks st);
                  fetchError := MSG_FETCH |};
      formik := formik st;
      inflight := delete i (inflight st) |}, []).
Proof. intros Hi Ho. unfold step_with. rewrite Hi, Ho. reflexivity. Qed.

Lemma step_Settle_current_fulfilled tok u c r :
  inflight st !! i = Some (url, afterCurrent tok u c) ->
  axios_settle o = Some r ->
  step_with token st (Settle i o) =
  ({| unit := unit st; hooks := hooks st; formik := formik st;
      inflight := <[i := (forecast_url tok c u, afterForecast r)]> (inflight st) |},
   [forecast_url tok c u]).
Proof. intros Hi Ho. unfold step_with. rewrite Hi, Ho. reflexivity. Qed.

Lemma step_Settle_forecast_rejected r1 :
  inflight st !! i = Some (url, afterForecast r1) ->
  axios_settle o = None ->
  step_with token st (Settle i o) =
  ({| unit := unit st;
      hooks := {| weather := weather (hooks st);
                  location := location (hooks st);
                  fetchError := MSG_FETCH |};
      formik := formik st;
      inflight := delete i (inflight st) |}, []).
Proof. intros Hi Ho. unfold step_with. rewrite Hi, Ho. reflexivity. Qed.

Lemma step_Settle_forecast_ok r1 r2 dailyData coord :
  inflight st !! i = Some (url, afterForecast r1) ->
  axios_settle o = Some r2 ->
  dailyData_of r2 = Some dailyData ->
  coord_of r1 = Some coord ->
  step_with token st (Settle i o) =
  ({| unit := unit st;
      hooks := {| weather := Some {| now := data r1; future := dailyData |};
                  location := coord;
                  fetchError := [] |};
      formik := formik st;
      inflight := delete i (inflight st) |}, []).
Proof.
  intros Hi Ho Hd Hc. unfold step_with.
  rewrite Hi, Ho, (advance_afterForecast_ok _ _ _ _ _ Hd Hc). reflexivity.
Qed.
End Steps.

(** ** Sequences of events *)

Lemma run_with_cons token st ev rest :
  run_with token st (ev :: rest) =
  (fst (run_with token (fst (step_with token st ev)) rest),
   snd (step_with token st ev) ++ snd (run_with token (fst (step_with token st ev)) rest)).
Proof.
  cbn [run_with]. destruct (step_with token st ev) as [st1 sent1].
  cbn [fst snd]. destruct (run_with token st1 rest) as [st2 sent2]. reflexivity.
Qed.

Lemma run_with_app token st evs1 evs2 :
  run_with token st (evs1 ++ evs2) =
  (fst (run_with token (fst (run_with token st evs1)) evs2),
   snd (run_with token st evs1) ++ snd (run_with token (fst (run_with token st evs1)) evs2)).
Proof.
  revert st; induction evs1 as [|ev evs1 IH]; intros st.
  - simpl. destruct (run_with token st evs2); reflexivity.
  - rewrite <- app_comm_cons, !run_with_cons, IH. cbn [fst snd].
    rewrite app_assoc. reflexivity.
Qed.

Lemma run_with_toggles token st k :
  run_with token st (repeat ToggleClick k) =
  ({| unit := Nat.iter k toggle (unit st); hooks := hooks st;
      formik := formik st; inflight := inflight st |}, []).
Proof.
  revert st; induction k as [|k IH]; intros st.
  - destruct st; reflexivity.
  - cbn [repeat]. rewrite run_with_cons, IH. cbn [step_with fst snd app].
    rewrite Nat.iter_succ_r. reflexivity.
Qed.



(** A handler that is the last one suspended, and is resumed. *)
Section SettleLast.
Variable token : option jsstring.
Variable st : AppState.
Variable l : list Pending.
Variable url : jsstring.
Variable o : outcome.

Lemma settle_last_current_rejected tok u c :
  inflight st = l ++ [(url, afterCurrent tok u c)] ->
  axios_settle o = None ->
  step_with token st (Settle (length l) o) =
  ({| unit := unit st;
      hooks := {| weather := weather (hooks st);
                  location := location (hooks st);
                  fetchError := MSG_FETCH |};
      formik := formik st;
      inflight := l |}, []).
Proof.
  intros Hl Ho.
  rewrite (step_Settle_current_rejected token st _ url o tok u c); [|
    rewrite Hl; apply list_lookup_middle; reflexivity | exact Ho].
  rewrite Hl, delete_middle, app_nil_r. reflexivity.
Qed.

Lemma settle_last_current_fulfilled tok u c r :
  inflight st = l ++ [(url, afterCurrent tok u c)] ->
  axios_settle o = Some r ->
  step_with token st (Settle (length l) o) =
  ({| unit := unit st; hooks := hooks st; formik := formik st;
      inflight := l ++ [(forecast_url tok c u, afterForecast r)] |},
   [forecast_url tok c u]).
Proof.
  intros Hl Ho.
  rewrite (step_Settle_current_fulfilled token st _ url o tok u c r); [|
    rewrite Hl; apply list_lookup_middle; reflexivity | exact Ho].
  rewrite Hl, (insert_app_r_alt l _ (length l)) by reflexivity.
  rewrite Nat.sub_diag. reflexivity.
Qed.

Lemma settle_last_forecast_rejected r1 :
  inflight st = l ++ [(url, afterForecast r1)] ->
  axios_settle o = None ->
  step_with token st (Settle (length l) o) =
  ({| unit := unit st;
      hooks := {| weather := weather (hooks st);
                  location := location (hooks st);
                  fetchError := MSG_FETCH |};
      formik := formik st;
      inflight := l |}, []).
Proof.
  intros Hl Ho.
  rewrite (step_Settle_forecast_rejected token st _ url o r1); [|
    rewrite Hl; apply list_lookup_middle; reflexivity | exact Ho].
  rewrite Hl, delete_middle, app_nil_r. reflexivity.
Qed.

Lemma settle_last_forecast_ok r1 r2 dailyData coord :
  inflight st = l ++ [(url, afterForecast r1)] ->
  axios_settle o = Some r2 ->
  dailyData_of r2 = Some dailyData ->
  coord_of r1 = Some coord ->
  step_with token st (Settle (length l) o) =
  ({| unit := unit st;
      hooks := {| weather := Some {| now := data r1; future := dailyData |};
                  location := coord;
                  fetchError := [] |};
      formik := formik st;
      inflight := l |}, []).
Proof.
  intros Hl Ho Hd Hc.
  rewrite (step_Settle_forecast_ok token st _ url o r1 r2 dailyData coord); [|
    rewrite Hl; apply list_lookup_middle; reflexivity | exact Ho | exact Hd | exact Hc].
  rewrite Hl, delete_middle, app_nil_r. reflexivity.
Qed.
End SettleLast.

(** ** One submission, from the click to the last response

    The user may click the toggle any number of times while the requests
    are in flight; [a], [b] and [c] count the clicks after the submission,
    after the first response and after the second. *)

Section Fetch.
Variable token : option jsstring.
Variable st : AppState.
Hypothesis token_present : falsy token = false.
Hypothesis valid : validate (values_cityName (formik st)) = None.

Lemma fetch_submitted a :
  run_with token st (Submit :: repeat ToggleClick a) =
  ({| unit := Nat.iter a toggle (unit st); hooks := hooks st;
      formik := {| values_cityName := values_cityName (formik st);
                   errors_cityName := None |};
      inflight :=
        inflight st ++
        [(weather_url token (values_cityName (formik st)) (unit st),
          afterCurrent token (unit st) (values_cityName (formik st)))] |},
   [weather_url token (values_cityName (formik st)) (unit st)]).
Proof.
  rewrite run_with_cons, step_Submit_valid by assumption.
  rewrite run_with_toggles. reflexivity.
Qed.

Lemma fetch_current_rejected a b o1 :
  axios_settle o1 = None ->
  run_with token st
    (Submit :: repeat ToggleClick a
     ++ Settle (length (inflight st)) o1 :: repeat ToggleClick b) =
  ({| unit := Nat.iter b toggle (Nat.iter a toggle (unit st));
      hooks := {| weather := weather (hooks st);
                  location := location (hooks st);
                  fetchError := MSG_FETCH |};
      formik := {| values_cityName := values_cityName (formik st);
                   errors_cityName := None |};
      inflight := inflight st |},
   [weather_url token (values_cityName (formik st)) (unit st)]).
Proof.
  intros Ho. rewrite app_comm_cons, run_with_app, fetch_submitted. cbn [fst snd].
  rewrite run_with_cons.
  erewrite settle_last_current_rejected by (reflexivity || exact Ho).
  rewrite run_with_toggles. reflexivity.
Qed.

Lemma fetch_current_fulfilled a b o1 r1 :
  axios_settle o1 = Some r1 ->
  run_with token st
    (Submit :: repeat ToggleClick a
     ++ Settle (length (inflight st)) o1 :: repeat ToggleClick b) =
  ({| unit := Nat.iter b toggle (Nat.iter a toggle (unit st));
      hooks := hooks st;
      formik := {| values_cityName := values_cityName (formik st);
                   errors_cityName := None |};
      inflight :=
        inflight st ++
        [(forecast_url token (values_cityName (formik st)) (unit st),
          afterForecast r1)] |},
   [weather_url token (values_cityName (formik st)) (unit st);
    forecast_url token (values_cityName (formik st)) (unit st)]).
Proof.
  intros Ho. rewrite app_comm_cons, run_with_app, fetch_submitted. cbn [fst snd].
  rewrite run_with_cons.
  erewrite settle_last_current_fulfilled by (reflexivity || exact Ho).
  rewrite run_with_toggles. reflexivity.
Qed.

Lemma fetch_forecast_rejected a b c o1 o2 r1 :
  axios_settle o1 = Some r1 ->
  axios_settle o2 = None ->
  run_with token st (fetch_events (length (inflight st)) a b c o1 o2) =
  ({| unit := Nat.iter c toggle (Nat.iter b toggle (Nat.iter a toggle (unit st)));
      hooks := {| weather := weather (hooks st);
                  location := location (hooks st);
                  fetchError := MSG_FETCH |};
      formik := {| values_cityName := values_cityName (formik st);
                   errors_cityName := None |};
      inflight := inflight st |},
   [weather_url token (values_cityName (formik st)) (unit st);
    forecast_url token (values_cityName (formik st)) (unit st)]).
Proof.
  intros Ho1 Ho2. unfold fetch_events.
  rewrite run_with_app, (fetch_current_fulfilled a b o1 r1 Ho1).
  cbn [fst snd]. rewrite run_with_cons.
  erewrite settle_last_forecast_rejected by (reflexivity || exact Ho2).
  rewrite run_with_toggles. reflexivity.
Qed.

Lemma fetch_forecast_ok a b c o1 o2 r1 r2 dailyData coord :
  axios_settle o1 = Some r1 ->
  axios_settle o2 = Some r2 ->
  dailyData_of r2 = Some dailyData ->
  coord_of r1 = Some coord ->
  run_with token st (fetch_events (length (inflight st)) a b c o1 o2) =
  ({| unit := Nat.iter c toggle (Nat.iter b toggle (Nat.iter a toggle (unit st)));
      hooks := {| weather := Some {| now := data r1; future := dailyData |};
                  location := coord;
                  fetchError := [] |};
      formik := {| values_cityName := values_cityName (formik st);
                   errors_cityName := None |};
      inflight := inflight st |},
   [weather_url token (values_cityName (formik st)) (unit st);
    forecast_url token (values_cityName (formik st)) (unit st)]).
Proof.
  intros Ho1 Ho2 Hd Hc. unfold fetch_events.
  rewrite run_with_app, (fetch_current_fulfilled a b o1 r1 Ho1).
  cbn [fst snd]. rewrite run_with_cons.
  erewrite settle_last_forecast_ok by (reflexivity || eassumption).
  rewrite run_with_toggles. reflexivity.
Qed.
End Fetch.

(** ** Invariant of the reachable states *)

Lemma dailyData_of_sampler (r : AxiosResponse) (dailyData : list json) :
  dailyData_of r = Some dailyData <->
  exists items, member (Some (data r)) (lit "list") = Some (Some (JArr items))
                /\ dailyData = sampler items.
Proof.
  unfold dailyData_of, any_filter, sampler. split.
  - destruct (member (Some (data r)) (lit "list")) as [[[| | | |items|]|]|];
      try discriminate.
    intros [= <-]. exists items; auto.
  - intros [items [-> ->]]. reflexivity.
Qed.

Lemma reachable_invariant st :
  reachable st ->
  (fetchError (hooks st) = [] \/ fetchError (hooks st) = MSG_FETCH)
  /\ Forall handler_of_component (inflight st).
Proof.
  induction 1 as [|st ev Hst [Herr Hpend]].
  - split; [left; reflexivity | constructor].
  - destruct ev as [text| | |i o]; unfold step, step_with.
    + split; assumption.
    + destruct (validate (values_cityName (formik st))); [split; assumption|].
      rewrite advance_onSubmit by apply API_TOKEN_present. cbn [fst hooks inflight].
      split; [assumption|].
      apply Forall_app_2; [assumption|].
      apply Forall_cons_2; [|constructor]. left. eexists _, _. reflexivity.
    + split; assumption.
    + destruct (inflight st !! i) as [[url k]|] eqn:Hi; [|split; assumption].
      destruct (Forall_lookup_1 _ _ _ _ Hpend Hi) as [(u & c & Hk)|(r1 & Hk)];
        cbn [snd] in Hk; subst k.
      * unfold afterCurrent. destruct (axios_settle o) as [r1|]; cbn.
        -- split; [assumption|]. apply Forall_insert; [assumption|].
           right. eexists. reflexivity.
        -- split; [right; reflexivity | apply Forall_delete; assumption].
      * unfold afterForecast.
        destruct (axios_settle o) as [r2|]; cbn;
          [destruct (dailyData_of r2); cbn; [destruct (coord_of r1); cbn|]|];
          (split; [auto | apply Forall_delete; assumption]).
Qed.

(** ** The screen *)

Lemma mounted_frame st st' :
  weather (hooks st') = weather (hooks st) ->
  location (hooks st') = location (hooks st) ->
  mounted st' = mounted st.
Proof.
  intros Hw Hl. unfold mounted, screen_of, render_snapshot. rewrite Hw, Hl.
  destruct (weather (hooks st)) as [w|]; [|reflexivity].
  destruct (header_of (now w)), (chart_data (future w)); try reflexivity.
  cbn [center_prop]. destruct (latLng _ _); reflexivity.
Qed.

Lemma block_frame st st' :
  unit st' = unit st ->
  weather (hooks st') = weather (hooks st) ->
  location (hooks st') = location (hooks st) ->
  shown_block (screen_of st') = shown_block (screen_of st).
Proof.
  intros Hu Hw Hl. unfold screen_of, render_snapshot. rewrite Hu, Hw, Hl.
  destruct (weather (hooks st)) as [w|]; [|reflexivity].
  destruct (header_of (now w)), (chart_data (future w)); try reflexivity.
  cbn [center_prop]. destruct (latLng _ _); reflexivity.
Qed.

Lemma screen_of_mounted st :
  mounted st = true ->
  screen_of st = Shown (render st) (shown_block (screen_of st)).
Proof.
  unfold mounted, screen_of.
  destruct (render_snapshot st) as [| |d]; try discriminate; [reflexivity|].
  destruct (latLng _ _); try discriminate. reflexivity.
Qed.

Lemma screen_after_nil st : screen_after st [] = screen_of st.
Proof. cbn [screen_after]. destruct (screen_of st); reflexivity. Qed.

Lemma screen_after_cons st ev rest :
  mounted st = true ->
  screen_after st (ev :: rest) = screen_after (fst (step st ev)) rest.
Proof.
  unfold mounted. cbn [screen_after].
  destruct (screen_of st); [reflexivity | discriminate | discriminate].
Qed.

(** A screen that is shown after a run is the screen of the state the
    run ends in. *)
Lemma screen_after_shown st evs v block :
  screen_after st evs = Shown v block ->
  screen_of (fst (run st evs)) = Shown v block.
Proof.
  revert st; induction evs as [|ev evs IH]; intros st.
  - rewrite screen_after_nil. exact (fun H => H).
  - destruct (mounted st) eqn:Hm.
    + rewrite (screen_after_cons _ _ _ Hm). intros H.
      unfold run. rewrite run_with_cons. cbn [fst]. apply IH, H.
    + unfold mounted in Hm. cbn [screen_after].
      destruct (screen_of st); discriminate.
Qed.

Lemma screen_of_view st v block : screen_of st = Shown v block -> v = render st.
Proof.
  unfold screen_of. destruct (render_snapshot st) as [| |d].
  - intros [= <- _]. reflexivity.
  - discriminate.
  - destruct (latLng _ _); try discriminate. intros [= <- _]. reflexivity.
Qed.



(** ** The unit toggle and the displayed suffix *)




(** ** Forecast sampling *)

(** C2: the sampler keeps the entries at the indices 0, 8, 16, ... in
    their order: element [i] of the output is element [i * 8] of the input
    (both are absent together), and the output has ceil(N/8) elements for
    an input of N, the least number whose eightfold reaches N. *)
Theorem C2_sampler_every_eighth {A : Type} (l : list A) :
  length (sampler l) = (length l + 7) / 8
  /\ length l <= 8 * length (sampler l) < length l + 8
  /\ forall i, sampler l !! i = l !! (i * 8).
Proof.
  pose proof (sampler_length l) as Hlen.
  split; [exact Hlen|]. split; [|apply sampler_lookup].
  rewrite Hlen.
  pose proof (Nat.div_mod_eq (length l + 7) 8) as Hdiv.
  pose proof (Nat.mod_upper_bound (length l + 7) 8) as Hmod.
  lia.
Qed.

(** ** Validation *)

(** C3: a city name whose trimmed form is empty (the empty string, or
    white space and line terminators only) is rejected on submission with
    the message "Please enter a city name.", nothing is requested and
    nothing else changes; any other city name passes validation. *)
Theorem C3_validation (st : AppState) :
  (trim (values_cityName (formik st)) = [] <->
   forallb strippable (values_cityName (formik st)) = true)
  /\ (trim (values_cityName (formik st)) = [] ->
      step st Submit =
      ({| unit := unit st; hooks := hooks st;
          formik := {| values_cityName := values_cityName (formik st);
                       errors_cityName := Some MSG_REQUIRED |};
          inflight := inflight st |}, [])
      /\ formErrorText (render (fst (step st Submit))) = Some MSG_REQUIRED)
  /\ (trim (values_cityName (formik st)) <> [] ->
      validate (values_cityName (formik st)) = None
      /\ errors_cityName (formik (fst (step st Submit))) = None).
Proof.
  split; [apply trim_nil|]. split.
  - intros Ht.
    assert (validate (values_cityName (formik st)) = Some MSG_REQUIRED) as Hv
      by (rewrite validate_trim, Ht; reflexivity).
    unfold step. rewrite (step_Submit_invalid _ _ _ Hv). split; reflexivity.
  - intros Ht.
    assert (validate (values_cityName (formik st)) = None) as Hv.
    { rewrite validate_trim.
      destruct (trim (values_cityName (formik st))); [contradiction | reflexivity]. }
    split; [exact Hv|].
    unfold step. rewrite (step_Submit_valid _ _ Hv API_TOKEN_present). reflexivity.
Qed.

Lemma C3_validation_witness :
  step (typed (lit "   ")) Submit =
  ({| unit := metric; hooks := hooks initial;
      formik := {| values_cityName := lit "   ";
                   errors_cityName := Some MSG_REQUIRED |};
      inflight := [] |}, [])
  /\ validate london = None.
Proof.
  split.
  - apply (proj1 (proj2 (C3_validation (typed (lit "   "))))). reflexivity.
  - apply (proj2 (proj2 (C3_validation (typed london)))). simpl. discriminate.
Defined.

(** ** The two requests *)

(** C4: a submission sends the current-conditions request and nothing
    else; when that request fails the handler ends, no forecast request is
    sent and none is left pending; when it succeeds the forecast request
    is sent next. *)
Theorem C4_requests_are_sequential (st : AppState) (o1 : outcome) :
  validate (values_cityName (formik st)) = None ->
  snd (step st Submit) =
    [weather_url API_TOKEN (values_cityName (formik st)) (unit st)]
  /\ (axios_settle o1 = None ->
      snd (run st [Submit; Settle (length (inflight st)) o1]) =
        [weather_url API_TOKEN (values_cityName (formik st)) (unit st)]
      /\ inflight (fst (run st [Submit; Settle (length (inflight st)) o1])) =
         inflight st)
  /\ (forall r1, axios_settle o1 = Some r1 ->
      snd (run st [Submit; Settle (length (inflight st)) o1]) =
        [weather_url API_TOKEN (values_cityName (formik st)) (unit st);
         forecast_url API_TOKEN (values_cityName (formik st)) (unit st)]).
Proof.
  intros Hv. split; [|split].
  - unfold step. rewrite (step_Submit_valid _ _ Hv API_TOKEN_present). reflexivity.
  - intros Ho.
    without_clicks (fetch_current_rejected API_TOKEN st API_TOKEN_present Hv 0 0 o1 Ho).
    split; reflexivity.
  - intros r1 Ho.
    without_clicks (fetch_current_fulfilled API_TOKEN st API_TOKEN_present Hv 0 0 o1 r1 Ho).
    reflexivity.
Qed.

Lemma C4_requests_are_sequential_witness :
  snd (run (typed qwxyzzz) [Submit; Settle 0 not_found]) =
    [weather_url API_TOKEN qwxyzzz metric]
  /\ snd (run (typed london) [Submit; Settle 0 (Response 200 london_now)]) =
    [weather_url API_TOKEN london metric; forecast_url API_TOKEN london metric].
Proof.
  split.
  - apply (proj1 (proj2 (C4_requests_are_sequential (typed qwxyzzz) not_found eq_refl))).
    reflexivity.
  - apply (proj2 (proj2 (C4_requests_are_sequential (typed london)
                           (Response 200 london_now) eq_refl))
             {| data := london_now |}).
    reflexivity.
Defined.

(** C5: a request fails when there is no response or when the status is
    outside 2xx.  When one of the two requests of a submission fails, the
    error text becomes the fixed failure message, and the weather and the
    location are the ones from before the submission. *)
Theorem C5_failed_request (st : AppState) (o1 o2 : outcome) :
  validate (values_cityName (formik st)) = None ->
  (forall o, axios_settle o = None <->
             match o with
             | NetworkError => True
             | Response status _ => (status < 200 \/ 300 <= status)%Z
             end)
  /\ (axios_settle o1 = None ->
   hooks (fst (run st [Submit; Settle (length (inflight st)) o1])) =
   {| weather := weather (hooks st); location := location (hooks st);
      fetchError := MSG_FETCH |})
  /\ (axios_settle o1 <> None -> axios_settle o2 = None ->
      hooks (fst (run st [Submit; Settle (length (inflight st)) o1;
                          Settle (length (inflight st)) o2])) =
      {| weather := weather (hooks st); location := location (hooks st);
         fetchError := MSG_FETCH |}).
Proof.
  intros Hv. split; [exact axios_settle_rejected|]. split.
  - intros Ho.
    without_clicks (fetch_current_rejected API_TOKEN st API_TOKEN_present Hv 0 0 o1 Ho).
    reflexivity.
  - intros Ho1 Ho2. destruct (axios_settle o1) as [r1|] eqn:E1; [|contradiction].
    without_clicks (fetch_forecast_rejected API_TOKEN st API_TOKEN_present Hv 0 0 0
                      o1 o2 r1 E1 Ho2).
    reflexivity.
Qed.

Lemma C5_failed_request_witness :
  hooks (fst (run (typed qwxyzzz) [Submit; Settle 0 not_found])) =
  {| weather := None; location := location (hooks initial); fetchError := MSG_FETCH |}
  /\ hooks (fst (run (typed london)
                   [Submit; Settle 0 (Response 200 london_now); Settle 0 NetworkError])) =
  {| weather := None; location := location (hooks initial); fetchError := MSG_FETCH |}.
Proof.
  split.
  - apply (proj1 (proj2 (C5_failed_request (typed qwxyzzz) not_found NetworkError
                           eq_refl))).
    reflexivity.
  - apply (proj2 (proj2 (C5_failed_request (typed london) (Response 200 london_now)
                           NetworkError eq_refl))).
    + simpl. discriminate.
    + reflexivity.
Defined.

(** ** The API key *)

(** C6: with a key that is absent ([undefined] or empty), a submission
    that passed validation sets the error text to the missing-key message,
    sends no request, suspends no handler and leaves the weather and the
    location as they were. *)
Theorem C6_missing_key (token : option jsstring) (st : AppState) :
  falsy token = true ->
  validate (values_cityName (formik st)) = None ->
  step_with token st Submit =
  ({| unit := unit st;
      hooks := {| weather := weather (hooks st);
                  location := location (hooks st);
                  fetchError := MSG_API_KEY |};
      formik := {| values_cityName := values_cityName (formik st);
                   errors_cityName := None |};
      inflight := inflight st |}, []).
Proof. intros Ht Hv. apply step_Submit_no_key; assumption. Qed.

Lemma C6_missing_key_witness :
  step_with None (typed london) Submit =
  ({| unit := metric;
      hooks := {| weather := None; location := location (hooks initial);
                  fetchError := MSG_API_KEY |};
      formik := {| values_cityName := london; errors_cityName := None |};
      inflight := [] |}, [])
  /\ fst (step_with (Some []) (typed london) Submit) =
     fst (step_with None (typed london) Submit).
Proof.
  split.
  - exact (C6_missing_key None (typed london) eq_refl eq_refl).
  - rewrite (C6_missing_key (Some []) (typed london) eq_refl eq_refl).
    rewrite (C6_missing_key None (typed london) eq_refl eq_refl).
    reflexivity.
Defined.

(** C10: the key of the component is a non-empty literal, so its handler
    always starts with the current-conditions request, whatever the unit,
    the city name and the state, and the missing-key message is the error
    text in no reachable state. *)
Theorem C10_key_guard_is_dead (st : AppState) :
  falsy API_TOKEN = false
  /\ (forall unit cityName h,
      advance (onSubmit unit cityName) h =
      (h, Some (weather_url API_TOKEN cityName unit,
                afterCurrent API_TOKEN unit cityName)))
  /\ (reachable st ->
      fetchError (hooks st) <> MSG_API_KEY
      /\ fetchErrorText (render st) <> Some MSG_API_KEY).
Proof.
  split; [reflexivity|]. split.
  - intros u c h. apply advance_onSubmit. reflexivity.
  - intros Hr. destruct (reachable_invariant st Hr) as [Herr _].
    unfold render; cbn [fetchErrorText].
    destruct Herr as [-> | ->]; split; vm_compute; discriminate.
Qed.

Lemma C10_key_guard_is_dead_witness :
  fetchError (hooks (fst (step (fst (step (typed london) Submit))
                               (Settle 0 NetworkError)))) <> MSG_API_KEY.
Proof.
  apply (proj2 (proj2 (C10_key_guard_is_dead
           (fst (step (fst (step (typed london) Submit)) (Settle 0 NetworkError)))))).
  repeat apply reachable_step. apply reachable_initial.
Defined.

(** ** The error text *)

(** C7, as the component behaves: a failed validation leaves the error
    text as it was (the message goes to the form field); a failed request
    sets it to the failure message; while a fetch is in progress, after
    the submission and after the first response, the text stored, and
    shown on a mounted view, is still the one from before the submission;
    it is cleared once both requests have succeeded and the snapshot is
    stored. *)
Theorem C7_error_text_lifecycle (st : AppState) (o1 o2 : outcome)
    (r1 r2 : AxiosResponse) (dailyData : list json) (coord : Location) :
  (validate (values_cityName (formik st)) <> None ->
   fetchError (hooks (fst (step st Submit))) = fetchError (hooks st))
  /\ (validate (values_cityName (formik st)) = None ->
      fetchError (hooks (fst (step st Submit))) = fetchError (hooks st)
      /\ (mounted st = true ->
          option_map fetchErrorText (shown_view (screen_after st [Submit]))
          = Some (fetchErrorText (render st)))
      /\ (axios_settle o1 = None ->
          fetchError (hooks (fst (run st [Submit; Settle (length (inflight st)) o1])))
          = MSG_FETCH)
      /\ (axios_settle o1 = Some r1 ->
          fetchError (hooks (fst (run st [Submit; Settle (length (inflight st)) o1])))
          = fetchError (hooks st)
          /\ (mounted st = true ->
              option_map fetchErrorText
                (shown_view (screen_after st [Submit; Settle (length (inflight st)) o1]))
              = Some (fetchErrorText (render st)))
          /\ (axios_settle o2 = None ->
              fetchError (hooks (fst (run st
                [Submit; Settle (length (inflight st)) o1;
                 Settle (length (inflight st)) o2])))
              = MSG_FETCH)
          /\ (axios_settle o2 = Some r2 ->
              dailyData_of r2 = Some dailyData ->
              coord_of r1 = Some coord ->
              fetchError (hooks (fst (run st
                [Submit; Settle (length (inflight st)) o1;
                 Settle (length (inflight st)) o2])))
              = []))).
Proof.
  split.
  - intros Hv. destruct (validate (values_cityName (formik st))) as [msg|] eqn:E;
      [|contradiction].
    unfold step. rewrite (step_Submit_invalid _ _ _ E). reflexivity.
  - intros Hv. split; [|split; [|split]].
    + unfold step. rewrite (step_Submit_valid _ _ Hv API_TOKEN_present). reflexivity.
    + intros Hm. rewrite (screen_after_cons _ _ _ Hm), screen_after_nil.
      unfold step. rewrite (step_Submit_valid _ _ Hv API_TOKEN_present). cbn [fst].
      rewrite screen_of_mounted by (rewrite <- Hm; apply mounted_frame; reflexivity).
      reflexivity.
    + intros Ho.
      without_clicks (fetch_current_rejected API_TOKEN st API_TOKEN_present Hv 0 0 o1 Ho).
      reflexivity.
    + intros Ho1. split; [|split; [|split]].
      * without_clicks (fetch_current_fulfilled API_TOKEN st API_TOKEN_present Hv
                          0 0 o1 r1 Ho1).
        reflexivity.
      * intros Hm. rewrite (screen_after_cons _ _ _ Hm).
        unfold step at 1. rewrite (step_Submit_valid _ _ Hv API_TOKEN_present). cbn [fst].
        rewrite screen_after_cons by (rewrite <- Hm; apply mounted_frame; reflexivity).
        rewrite screen_after_nil. unfold step.
        erewrite settle_last_current_fulfilled by (reflexivity || exact Ho1). cbn [fst].
        rewrite screen_of_mounted by (rewrite <- Hm; apply mounted_frame; reflexivity).
        reflexivity.
      * intros Ho2.
        without_clicks (fetch_forecast_rejected API_TOKEN st API_TOKEN_present Hv
                          0 0 0 o1 o2 r1 Ho1 Ho2).
        reflexivity.
      * intros Ho2 Hd Hc.
        without_clicks (fetch_forecast_ok API_TOKEN st API_TOKEN_present Hv
                          0 0 0 o1 o2 r1 r2 dailyData coord Ho1 Ho2 Hd Hc).
        reflexivity.
Qed.

Lemma C7_error_text_lifecycle_witness :
  fetchError (hooks (fst (step (typed []) Submit))) = []
  /\ option_map fetchErrorText
       (shown_view (screen_after (typed paris) [Submit; Settle 0 (Response 200 paris_now)]))
     = Some None
  /\ fetchError (hooks (fst (run (typed paris)
       [Submit; Settle 0 (Response 200 paris_now);
        Settle 0 (Response 200 paris_days)]))) = [].
Proof.
  split; [|split].
  - apply (proj1 (C7_error_text_lifecycle (typed []) NetworkError NetworkError
                    {| data := JNull |} {| data := JNull |} [] (location (hooks initial)))).
    simpl. discriminate.
  - destruct (C7_error_text_lifecycle (typed paris)
                (Response 200 paris_now) (Response 200 paris_days)
                {| data := paris_now |} {| data := paris_days |}
                [dated_entry "2025-06-01 00:00:00" 15; dated_entry "2025-06-02 00:00:00" 16]
                paris_coord)
      as [_ H].
    destruct (H eq_refl) as (_ & _ & _ & H1).
    destruct (H1 eq_refl) as (_ & H2 & _).
    exact (H2 eq_refl).
  - destruct (C7_error_text_lifecycle (typed paris)
                (Response 200 paris_now) (Response 200 paris_days)
                {| data := paris_now |} {| data := paris_days |}
                [dated_entry "2025-06-01 00:00:00" 15; dated_entry "2025-06-02 00:00:00" 16]
                paris_coord)
      as [_ H].
    destruct (H eq_refl) as (_ & _ & _ & H1).
    destruct (H1 eq_refl) as (_ & _ & _ & H2).
    exact (H2 eq_refl eq_refl eq_refl).
Defined.

(** C7 as stated fails on two counts.  The lookup of a city that does not
    exist leaves the failure message; Paris is then submitted, and while
    that fetch is in progress the message is still stored and on the
    screen; it goes away when the second response has arrived and Paris is
    shown.  And a submission that fails validation sets the form's
    message, not the error text. *)
Lemma C7_counterexample :
  fetchError (hooks (fst (run initial paris_retry_in_progress))) = MSG_FETCH
  /\ option_map fetchErrorText (shown_view (screen_after initial paris_retry_in_progress))
     = Some (Some MSG_FETCH)
  /\ List.map fst (inflight (fst (run initial paris_retry_in_progress))) =
     [weather_url API_TOKEN paris metric]
  /\ fetchError (hooks (fst (run initial paris_retry_completed))) = []
  /\ shown_block (screen_after initial paris_retry_completed) =
     Some {| header := paris_header;
             heading_suffix := lit "C";
             chart := paris_points;
             center_prop := paris_coord;
             position_prop := paris_coord |}
  /\ option_map fetchErrorText (shown_view (screen_after initial paris_retry_completed))
     = Some None
  /\ validate [] = Some MSG_REQUIRED
  /\ fetchError (hooks (fst (step initial Submit))) = []
  /\ shown_view (screen_after initial [Submit]) =
     Some {| formErrorText := Some MSG_REQUIRED;
             toggleLabel := lit "Change to Fahrenheit";
             fetchErrorText := None;
             tempSuffix := None |}
  /\ fetchError (hooks (fst (run initial paris_retry_in_progress))) <> [].
Proof.
  repeat split; try (vm_compute; reflexivity).
  vm_compute. discriminate.
Qed.

(** ** The toggle *)

(** C8: a click on the toggle flips the unit (metric to imperial, imperial
    to metric) and changes nothing else: the weather, the location, the
    error text, the form and the suspended handlers are the same, and no
    request is sent.  The requests of the next submission carry the new
    unit. *)
Theorem C8_toggle_frame (st : AppState) (o1 : outcome) (r1 : AxiosResponse) :
  step st ToggleClick =
    ({| unit := toggle (unit st); hooks := hooks st; formik := formik st;
        inflight := inflight st |}, [])
  /\ toggle metric = imperial
  /\ toggle imperial = metric
  /\ (validate (values_cityName (formik st)) = None ->
      axios_settle o1 = Some r1 ->
      snd (run st [ToggleClick; Submit; Settle (length (inflight st)) o1]) =
      [weather_url API_TOKEN (values_cityName (formik st)) (toggle (unit st));
       forecast_url API_TOKEN (values_cityName (formik st)) (toggle (unit st))]).
Proof.
  split; [reflexivity|]. split; [reflexivity|]. split; [reflexivity|].
  intros Hv Ho. unfold run. rewrite run_with_cons.
  change (step_with API_TOKEN st ToggleClick) with
    ({| unit := toggle (unit st); hooks := hooks st; formik := formik st;
        inflight := inflight st |}, @nil jsstring).
  cbn [fst snd app].
  set (st1 := {| unit := toggle (unit st); hooks := hooks st; formik := formik st;
                 inflight := inflight st |}).
  change (length (inflight st)) with (length (inflight st1)).
  pose proof (fetch_current_fulfilled API_TOKEN st1 API_TOKEN_present Hv 0 0 o1 r1 Ho) as E.
  cbn [repeat app] in E. rewrite E. reflexivity.
Qed.

Lemma C8_toggle_frame_witness :
  snd (run (typed london) [ToggleClick; Submit; Settle 0 (Response 200 london_now)]) =
  [weather_url API_TOKEN london imperial; forecast_url API_TOKEN london imperial].
Proof.
  exact (proj2 (proj2 (proj2 (C8_toggle_frame (typed london) (Response 200 london_now)
                                {| data := london_now |}))) eq_refl eq_refl).
Defined.

(** ** The city name in the requests *)

(** C9, as the component behaves: both requests of a submission carry the
    city name as it stands in the field, white space at either end
    included; the schema trims it to decide that it is not empty and for
    nothing else.  For a name that has no white space at either end this
    is its trimmed form. *)
Theorem C9_query_is_the_text_as_typed (st : AppState) (o1 : outcome) (r1 : AxiosResponse) :
  validate (values_cityName (formik st)) = None ->
  axios_settle o1 = Some r1 ->
  snd (run st [Submit; Settle (length (inflight st)) o1]) =
    [weather_url API_TOKEN (values_cityName (formik st)) (unit st);
     forecast_url API_TOKEN (values_cityName (formik st)) (unit st)]
  /\ trim (values_cityName (formik st)) <> []
  /\ (trim (values_cityName (formik st)) = values_cityName (formik st) ->
      snd (run st [Submit; Settle (length (inflight st)) o1]) =
      [weather_url API_TOKEN (trim (values_cityName (formik st))) (unit st);
       forecast_url API_TOKEN (trim (values_cityName (formik st))) (unit st)]).
Proof.
  intros Hv Ho.
  assert (snd (run st [Submit; Settle (length (inflight st)) o1]) =
          [weather_url API_TOKEN (values_cityName (formik st)) (unit st);
           forecast_url API_TOKEN (values_cityName (formik st)) (unit st)]) as Hsent.
  { without_clicks (fetch_current_fulfilled API_TOKEN st API_TOKEN_present Hv
                      0 0 o1 r1 Ho).
    reflexivity. }
  split; [exact Hsent|]. split.
  - intros Ht. rewrite validate_trim, Ht in Hv. discriminate.
  - intros ->. exact Hsent.
Qed.

Lemma C9_query_is_the_text_as_typed_witness :
  snd (run (typed (lit " Rome")) [Submit; Settle 0 (Response 200 london_now)]) =
  [weather_url API_TOKEN (lit " Rome") metric;
   forecast_url API_TOKEN (lit " Rome") metric].
Proof.
  exact (proj1 (C9_query_is_the_text_as_typed (typed (lit " Rome"))
                  (Response 200 london_now) {| data := london_now |} eq_refl eq_refl)).
Defined.

(** C9 as stated fails: " Rome", typed with a space in front, passes
    validation and is sent as it is, not as "Rome". *)
Lemma C9_counterexample :
  validate (lit " Rome") = None
  /\ trim (lit " Rome") = lit "Rome"
  /\ snd (run (typed (lit " Rome")) [Submit; Settle 0 (Response 200 london_now)]) =
     [weather_url API_TOKEN (lit " Rome") metric;
      forecast_url API_TOKEN (lit " Rome") metric]
  /\ snd (run (typed (lit " Rome")) [Submit; Settle 0 (Response 200 london_now)]) <>
     [weather_url API_TOKEN (trim (lit " Rome")) metric;
      forecast_url API_TOKEN (trim (lit " Rome")) metric].
Proof.
  repeat split; try (vm_compute; reflexivity).
  vm_compute. discriminate.
Qed.

(** * Further properties of the component *)

(** ** The unit over a whole run *)

Lemma step_with_unit token st ev :
  unit (fst (step_with token st ev)) =
  if is_ToggleClick ev then toggle (unit st) else unit st.
Proof.
  destruct ev as [text| | |i o]; cbn [step_with is_ToggleClick]; try reflexivity.
  - destruct (validate (values_cityName (formik st))); [reflexivity|].
    destruct (advance _ (hooks st)); reflexivity.
  - destruct (inflight st !! i) as [[url k]|]; [|reflexivity].
    destruct (advance _ (hooks st)); reflexivity.
Qed.

Lemma run_with_unit token st evs :
  unit (fst (run_with token st evs)) = Nat.iter (clicks evs) toggle (unit st).
Proof.
  revert st; induction evs as [|ev evs IH]; intros st; [reflexivity|].
  rewrite run_with_cons. cbn [fst]. rewrite IH, step_with_unit.
  unfold clicks. cbn [List.filter].
  destruct (is_ToggleClick ev); [|reflexivity].
  cbn [length]. rewrite Nat.iter_succ_r. reflexivity.
Qed.

Lemma iter_toggle_metric k :
  Nat.iter k toggle metric = if Nat.even k then metric else imperial.
Proof.
  induction k as [k IH] using (well_founded_induction lt_wf).
  destruct k as [|[|k]]; [reflexivity | reflexivity |].
  rewrite !Nat.iter_succ_r.
  change (toggle (toggle metric)) with metric.
  rewrite IH by lia. reflexivity.
Qed.

(** X1: whatever is typed, submitted or answered, the unit is metric
    after an even number of clicks on the toggle and imperial after an odd
    number. *)
Theorem unit_follows_click_parity (evs : list event) :
  unit (fst (run initial evs)) = if Nat.even (clicks evs) then metric else imperial.
Proof.
  unfold run. rewrite run_with_unit. apply iter_toggle_metric.
Qed.

(** X2: the toggle button does what its label says: a click on "Change
    to Fahrenheit" makes the suffix "F", a click on "Change to Celsius"
    makes it "C", and the label is always one of the two. *)
Theorem toggle_button_does_what_it_says (st : AppState) :
  (toggleLabel (render st) = lit "Change to Fahrenheit"
   \/ toggleLabel (render st) = lit "Change to Celsius")
  /\ (toggleLabel (render st) = lit "Change to Fahrenheit" ->
      suffix_of (unit (fst (step st ToggleClick))) = lit "F")
  /\ (toggleLabel (render st) = lit "Change to Celsius" ->
      suffix_of (unit (fst (step st ToggleClick))) = lit "C").
Proof.
  unfold render, step. cbn [toggleLabel step_with fst unit]. unfold toggle.
  destruct (streq (unit st) metric).
  - split; [left; reflexivity|]. split; [reflexivity|]. discriminate.
  - split; [right; reflexivity|]. split; [discriminate | reflexivity].
Qed.

Lemma toggle_button_does_what_it_says_witness :
  suffix_of (unit (fst (step initial ToggleClick))) = lit "F".
Proof.
  exact (proj1 (proj2 (toggle_button_does_what_it_says initial)) eq_refl).
Defined.

(** ** The form over a whole run *)

Lemma step_with_values token st ev :
  values_cityName (formik (fst (step_with token st ev))) =
  last_change (values_cityName (formik st)) [ev].
Proof.
  destruct ev as [text| | |i o]; cbn [step_with last_change]; try reflexivity.
  - destruct (validate (values_cityName (formik st))); [reflexivity|].
    destruct (advance _ (hooks st)); reflexivity.
  - destruct (inflight st !! i) as [[url k]|]; [|reflexivity].
    destruct (advance _ (hooks st)); reflexivity.
Qed.

Lemma last_change_cons text ev evs :
  last_change text (ev :: evs) = last_change (last_change text [ev]) evs.
Proof. destruct ev; reflexivity. Qed.

(** X3: the text of the field is the last one typed.  A submission,
    valid or not, leaves it as it is (it is neither trimmed nor cleared),
    and so do the toggle and the responses. *)
Theorem field_holds_last_typed_text (token : option jsstring) (st : AppState)
    (evs : list event) :
  values_cityName (formik (fst (run_with token st evs))) =
  last_change (values_cityName (formik st)) evs.
Proof.
  revert st; induction evs as [|ev evs IH]; intros st; [reflexivity|].
  rewrite run_with_cons. cbn [fst].
  rewrite IH, step_with_values, <- last_change_cons. reflexivity.
Qed.

Lemma step_with_errors token st ev :
  errors_cityName (formik (fst (step_with token st ev))) =
  if touches_form ev
  then validate (values_cityName (formik (fst (step_with token st ev))))
  else errors_cityName (formik st).
Proof.
  destruct ev as [text| | |i o]; cbn [step_with touches_form]; try reflexivity.
  - destruct (validate (values_cityName (formik st))) eqn:E.
    + cbn. rewrite E. reflexivity.
    + destruct (advance _ (hooks st)). cbn. rewrite E. reflexivity.
  - destruct (inflight st !! i) as [[url k]|]; [|reflexivity].
    destruct (advance _ (hooks st)); reflexivity.
Qed.

Lemma last_change_untouched text evs :
  existsb touches_form evs = false -> last_change text evs = text.
Proof.
  induction evs as [|ev evs IH]; [reflexivity|].
  cbn [existsb]. intros H. apply orb_false_iff in H as [Hev Hevs].
  destruct ev; try discriminate; cbn [last_change]; auto.
Qed.

Lemma run_with_errors token st evs :
  errors_cityName (formik (fst (run_with token st evs))) =
  if existsb touches_form evs
  then validate (last_change (values_cityName (formik st)) evs)
  else errors_cityName (formik st).
Proof.
  revert st; induction evs as [|ev evs IH]; intros st; [reflexivity|].
  rewrite run_with_cons. cbn [fst existsb]. rewrite IH.
  rewrite (last_change_cons _ ev evs), <- (step_with_values token).
  destruct (existsb touches_form evs) eqn:E.
  - rewrite orb_true_r. reflexivity.
  - rewrite orb_false_r, step_with_errors.
    rewrite (last_change_untouched _ _ E). reflexivity.
Qed.

Lemma run_form_error (evs : list event) :
  formErrorText (render (fst (run initial evs))) =
  if existsb touches_form evs && negb (truthy (trim (last_change [] evs)))
  then Some MSG_REQUIRED else None.
Proof.
  unfold render, run. cbn [formErrorText]. rewrite run_with_errors.
  cbn [initial formik values_cityName errors_cityName].
  destruct (existsb touches_form evs); [|reflexivity].
  rewrite validate_trim.
  destruct (truthy (trim (last_change [] evs))); reflexivity.
Qed.

(** X4: on a screen that is shown, the message under the field is never
    stale.  Before the first keystroke or submission there is none; from
    then on "Please enter a city name." is there exactly while the text
    of the field is blank, whatever the responses and the toggle did in
    between. *)
Theorem form_error_tracks_the_field (evs : list event) (v : View)
    (block : option Details) :
  screen_after initial evs = Shown v block ->
  formErrorText v =
  if existsb touches_form evs && negb (truthy (trim (last_change [] evs)))
  then Some MSG_REQUIRED else None.
Proof.
  intros H. apply screen_after_shown in H. apply screen_of_view in H. subst v.
  apply run_form_error.
Qed.

Lemma form_error_tracks_the_field_witness :
  screen_after initial
    [Change paris; Submit; Change [];
     Settle 0 (Response 200 paris_now); Settle 0 (Response 200 paris_days)] =
  Shown {| formErrorText := Some MSG_REQUIRED;
           toggleLabel := lit "Change to Fahrenheit";
           fetchErrorText := None;
           tempSuffix := Some (lit "C") |}
        (Some {| header := paris_header;
                 heading_suffix := lit "C";
                 chart := paris_points;
                 center_prop := paris_coord;
                 position_prop := paris_coord |})
  /\ formErrorText
       {| formErrorText := Some MSG_REQUIRED;
          toggleLabel := lit "Change to Fahrenheit";
          fetchErrorText := None;
          tempSuffix := Some (lit "C") |} = Some MSG_REQUIRED.
Proof.
  split; [reflexivity|].
  exact (form_error_tracks_the_field
           [Change paris; Submit; Change [];
            Settle 0 (Response 200 paris_now); Settle 0 (Response 200 paris_days)]
           _ (Some {| header := paris_header;
                      heading_suffix := lit "C";
                      chart := paris_points;
                      center_prop := paris_coord;
                      position_prop := paris_coord |})
           eq_refl).
Defined.

(** ** The snapshot and the map over a whole run *)

Lemma advance_keeps_weather p h :
  weather h <> None -> weather (fst (advance p h)) <> None.
Proof.
  revert h; induction p as [|a k IH|url k IH]; intros h Hw; cbn [advance fst].
  - exact Hw.
  - apply IH. destruct a; cbn; [discriminate | exact Hw | exact Hw].
  - exact Hw.
Qed.

Lemma step_with_keeps_weather token st ev :
  weather (hooks st) <> None ->
  weather (hooks (fst (step_with token st ev))) <> None.
Proof.
  intros Hw. destruct ev as [text| | |i o]; cbn [step_with]; try exact Hw.
  - destruct (validate (values_cityName (formik st))); [exact Hw|].
    pose proof (advance_keeps_weather
                  (onSubmit_with token (unit st) (values_cityName (formik st)))
                  (hooks st) Hw) as Hk.
    destruct (advance _ (hooks st)). exact Hk.
  - destruct (inflight st !! i) as [[url k]|]; [|exact Hw].
    pose proof (advance_keeps_weather (k (axios_settle o)) (hooks st) Hw) as Hk.
    destruct (advance _ (hooks st)). exact Hk.
Qed.

Lemma run_with_keeps_weather token st evs :
  weather (hooks st) <> None ->
  weather (hooks (fst (run_with token st evs))) <> None.
Proof.
  revert st; induction evs as [|ev evs IH]; intros st Hw; [exact Hw|].
  rewrite run_with_cons. cbn [fst]. apply IH, step_with_keeps_weather, Hw.
Qed.

(** X5: once a snapshot is stored, no event removes it: not a failed
    refetch, not a toggle, not an emptied field.  On every screen that is
    shown afterwards the block is there. *)
Theorem snapshot_is_never_cleared (st : AppState) (evs : list event) :
  weather (hooks st) <> None ->
  weather (hooks (fst (run st evs))) <> None
  /\ forall v block, screen_after st evs = Shown v block -> block <> None.
Proof.
  intros Hw.
  pose proof (run_with_keeps_weather API_TOKEN st evs Hw) as Hfinal.
  split; [exact Hfinal|].
  intros v block H. apply screen_after_shown in H.
  unfold screen_of, render_snapshot in H. fold (run st evs) in Hfinal.
  destruct (weather (hooks (fst (run st evs)))) as [w|]; [|contradiction].
  destruct (header_of (now w)), (chart_data (future w)); try discriminate.
  destruct (latLng _ _); try discriminate.
  injection H as _ <-. discriminate.
Qed.

Lemma snapshot_is_never_cleared_witness :
  shown_block (screen_after paris_shown [Change qwxyzzz; Submit; Settle 0 not_found])
  <> None
  /\ option_map fetchErrorText
       (shown_view (screen_after paris_shown [Change qwxyzzz; Submit; Settle 0 not_found]))
     = Some (Some MSG_FETCH).
Proof.
  split; [|reflexivity].
  exact (proj2 (snapshot_is_never_cleared paris_shown
                  [Change qwxyzzz; Submit; Settle 0 not_found]
                  ltac:(discriminate))
           _ _ eq_refl).
Defined.

Lemma toggle_is_unit u : is_unit (toggle u).
Proof. unfold toggle, is_unit. destruct (streq u metric); auto. Qed.

Lemma reachable_pending st :
  reachable st -> is_unit (unit st) /\ Forall component_pending (inflight st).
Proof.
  induction 1 as [|st ev Hst [Hu Hpend]].
  - split; [left; reflexivity | constructor].
  - destruct ev as [text| | |i o]; unfold step, step_with.
    + split; assumption.
    + destruct (validate (values_cityName (formik st))) eqn:Hv; [split; assumption|].
      rewrite advance_onSubmit by apply API_TOKEN_present. cbn [fst unit inflight].
      split; [assumption|].
      apply Forall_app_2; [assumption|].
      apply Forall_cons_2; [|constructor]. constructor; assumption.
    + split; [apply toggle_is_unit | assumption].
    + destruct (inflight st !! i) as [[url k]|] eqn:Hi; [|split; assumption].
      pose proof (Forall_lookup_1 _ _ _ _ Hpend Hi) as Hk.
      inversion Hk as [u c Hunit Hv|u c r1 Hunit Hv]; subst.
      * unfold afterCurrent. destruct (axios_settle o) as [r1|]; cbn.
        -- split; [assumption|]. apply Forall_insert; [assumption|].
           constructor; assumption.
        -- split; [assumption | apply Forall_delete; assumption].
      * unfold afterForecast.
        destruct (axios_settle o) as [r2|]; cbn;
          [destruct (dailyData_of r2); cbn; [destruct (coord_of r1); cbn|]|];
          (split; [assumption | apply Forall_delete; assumption]).
Qed.

Lemma reachable_run st evs : reachable st -> reachable (fst (run st evs)).
Proof.
  revert st; induction evs as [|ev evs IH]; intros st Hr; [exact Hr|].
  unfold run. rewrite run_with_cons. cbn [fst].
  apply IH. apply (reachable_step st ev Hr).
Qed.

(** X6: the stored coordinates change only together with the snapshot:
    an event of the component either leaves them as they are, or stores a
    snapshot, the coordinates of that snapshot's current conditions, and
    an empty error text, all three at once. *)
Theorem coordinates_change_only_with_the_snapshot (st : AppState) (ev : event) :
  reachable st ->
  location (hooks (fst (step st ev))) = location (hooks st)
  \/ exists w,
       weather (hooks (fst (step st ev))) = Some w
       /\ coord_of {| data := now w |} = Some (location (hooks (fst (step st ev))))
       /\ fetchError (hooks (fst (step st ev))) = [].
Proof.
  intros Hr. destruct (reachable_pending st Hr) as [_ Hpend].
  destruct ev as [text| | |i o]; unfold step, step_with.
  - left; reflexivity.
  - destruct (validate (values_cityName (formik st))); [left; reflexivity|].
    rewrite advance_onSubmit by apply API_TOKEN_present. left; reflexivity.
  - left; reflexivity.
  - destruct (inflight st !! i) as [[url k]|] eqn:Hi; [|left; reflexivity].
    pose proof (Forall_lookup_1 _ _ _ _ Hpend Hi) as Hk.
    inversion Hk as [u c Hunit Hv|u c r1 Hunit Hv]; subst.
    + unfold afterCurrent. destruct (axios_settle o); left; reflexivity.
    + unfold afterForecast. destruct (axios_settle o) as [r2|]; [|left; reflexivity].
      destruct (dailyData_of r2) as [daily|]; [|left; reflexivity].
      destruct (coord_of r1) as [coord|] eqn:Hc; [|left; reflexivity].
      right. eexists. cbn. split; [reflexivity|]. split; [|reflexivity].
      destruct r1. exact Hc.
Qed.

Lemma coordinates_change_only_with_the_snapshot_witness :
  location (hooks paris_awaits_forecast) = location (hooks initial)
  /\ exists w,
       weather (hooks (fst (step paris_awaits_forecast
                              (Settle 0 (Response 200 paris_days))))) = Some w
       /\ coord_of {| data := now w |} = Some paris_coord
       /\ location (hooks (fst (step paris_awaits_forecast
                                 (Settle 0 (Response 200 paris_days))))) = paris_coord
       /\ fetchError (hooks (fst (step paris_awaits_forecast
                                   (Settle 0 (Response 200 paris_days))))) = [].
Proof.
  split; [reflexivity|].
  destruct (coordinates_change_only_with_the_snapshot paris_awaits_forecast
              (Settle 0 (Response 200 paris_days))
              (reachable_run initial _ reachable_initial))
    as [Hsame|(w & Hw & Hc & He)].
  - discriminate Hsame.
  - exists w. repeat split; assumption || reflexivity.
Defined.

(** ** The requests of a whole run *)

Lemma advance_afterForecast_done r1 settled h :
  snd (advance (afterForecast r1 settled) h) = None.
Proof.
  unfold afterForecast. destruct settled as [r2|]; [|reflexivity].
  destruct (dailyData_of r2); [|reflexivity].
  cbn [advance]. destruct (coord_of r1); reflexivity.
Qed.

Lemma owed_app_current l n url token unit cityName :
  owed l n -> owed (l ++ [(url, afterCurrent token unit cityName)]) (S n).
Proof.
  induction 1; cbn [app]; repeat constructor; assumption.
Qed.

Lemma owed_settle l n :
  owed l n ->
  forall i url k o h, l !! i = Some (url, k) ->
  exists n',
    owed match snd (advance (k (axios_settle o)) h) with
         | Some p' => <[i := p']> l
         | None => delete i l
         end n'
    /\ length (request_of (snd (advance (k (axios_settle o)) h))) + n' <= n.
Proof.
  induction 1 as [|url0 tok u c l n Hl IH|url0 r1 l n Hl IH];
    intros i url k o h Hi; [discriminate| |].
  - destruct i as [|i]; cbn in Hi.
    + injection Hi as _ <-. unfold afterCurrent.
      destruct (axios_settle o) as [r|]; cbn.
      * exists n. split; [constructor; exact Hl | lia].
      * exists n. split; [exact Hl | lia].
    + destruct (IH i url k o h Hi) as (n' & Hn' & Hle).
      exists (S n'). destruct (snd (advance (k (axios_settle o)) h)); cbn in *;
        (split; [constructor; exact Hn' | lia]).
  - destruct i as [|i]; cbn in Hi.
    + injection Hi as _ <-. rewrite advance_afterForecast_done. cbn.
      exists n. split; [exact Hl | lia].
    + destruct (IH i url k o h Hi) as (n' & Hn' & Hle).
      exists n'. destruct (snd (advance (k (axios_settle o)) h)); cbn in *;
        (split; [constructor; exact Hn' | lia]).
Qed.

Lemma owed_step token st ev n :
  owed (inflight st) n ->
  exists n',
    owed (inflight (fst (step_with token st ev))) n'
    /\ length (snd (step_with token st ev)) + n' <= n + 2 * submissions [ev].
Proof.
  intros Hn. destruct ev as [text| | |i o]; cbn [step_with].
  - exists n. split; [exact Hn | cbn; lia].
  - destruct (validate (values_cityName (formik st))).
    + exists n. split; [exact Hn | cbn; lia].
    + destruct (falsy token) eqn:Ht.
      * rewrite advance_onSubmit_no_key by exact Ht. cbn. rewrite app_nil_r.
        exists n. split; [exact Hn | lia].
      * rewrite advance_onSubmit by exact Ht. cbn.
        exists (S n). split; [apply owed_app_current; exact Hn | lia].
  - exists n. split; [exact Hn | cbn; lia].
  - destruct (inflight st !! i) as [[url k]|] eqn:Hi.
    + destruct (owed_settle _ _ Hn i url k o (hooks st) Hi) as (n' & Hn' & Hle).
      destruct (advance (k (axios_settle o)) (hooks st)) as [h p].
      exists n'. cbn in *. split; [exact Hn' | lia].
    + exists n. split; [exact Hn | cbn; lia].
Qed.

Lemma owed_run token evs :
  forall st n, owed (inflight st) n ->
  exists n',
    owed (inflight (fst (run_with token st evs))) n'
    /\ length (snd (run_with token st evs)) + n' <= n + 2 * submissions evs.
Proof.
  induction evs as [|ev evs IH]; intros st n Hn.
  - exists n. split; [exact Hn | cbn; lia].
  - destruct (owed_step token st ev n Hn) as (n1 & Hn1 & Hle1).
    destruct (IH _ n1 Hn1) as (n2 & Hn2 & Hle2).
    rewrite run_with_cons. cbn [fst snd]. exists n2. split; [exact Hn2|].
    rewrite length_app.
    assert (submissions (ev :: evs) = submissions [ev] + submissions evs) as ->.
    { unfold submissions. cbn [List.filter]. destruct (is_Submit ev); reflexivity. }
    lia.
Qed.

(** X7: the component sends at most two requests for each submission,
    whatever the responses and their order, and for any key: there is no
    retry and no request that no submission asked for. *)
Theorem at_most_two_requests_per_submission (token : option jsstring)
    (evs : list event) :
  length (snd (run_with token initial evs)) <= 2 * submissions evs.
Proof.
  destruct (owed_run token evs initial 0 owed_nil) as (n' & _ & Hle). lia.
Qed.

Lemma component_request_step st ev :
  reachable st -> Forall component_request (snd (step st ev)).
Proof.
  intros Hr. destruct (reachable_pending st Hr) as [Hu Hpend].
  destruct ev as [text| | |i o]; unfold step, step_with; try constructor.
  - destruct (validate (values_cityName (formik st))) eqn:Hv; [constructor|].
    rewrite advance_onSubmit by apply API_TOKEN_present. cbn.
    apply Forall_cons_2; [|constructor].
    exists (unit st), (values_cityName (formik st)). auto.
  - destruct (inflight st !! i) as [[url k]|] eqn:Hi; [|constructor].
    pose proof (Forall_lookup_1 _ _ _ _ Hpend Hi) as Hk.
    inversion Hk as [u c Hunit Hv|u c r1 Hunit Hv]; subst.
    + unfold afterCurrent. destruct (axios_settle o); cbn; [|constructor].
      apply Forall_cons_2; [|constructor]. exists u, c. auto.
    + pose proof (advance_afterForecast_done r1 (axios_settle o) (hooks st)) as Hd.
      destruct (advance _ (hooks st)) as [h p]. cbn in Hd. subst p. constructor.
Qed.

(** X8: every request the component ever sends goes to one of the two
    endpoints with the component's key, a city name that passed
    validation and [units=metric] or [units=imperial]. *)
Theorem every_request_is_well_formed (evs : list event) :
  Forall component_request (snd (run initial evs)).
Proof.
  assert (forall st, reachable st -> Forall component_request (snd (run st evs))) as H.
  { induction evs as [|ev evs IH]; intros st Hr; [constructor|].
    unfold run. rewrite run_with_cons. cbn [snd].
    apply Forall_app_2; [apply component_request_step, Hr|].
    apply IH. apply (reachable_step st ev Hr). }
  apply H, reachable_initial.
Qed.

(** X9: the forecast request of a handler asks for the city and the unit
    of its own current-conditions request, even when the user has typed
    another city, toggled the unit or submitted again in the meantime: a
    handler that waits for its current conditions sends exactly that
    forecast request when they arrive and nothing when they fail, and a
    handler that waits for its forecast sends nothing more. *)
Theorem forecast_request_matches_its_current_request
    (st : AppState) (i : nat) (url : jsstring) (k : option AxiosResponse -> prog) :
  reachable st ->
  inflight st !! i = Some (url, k) ->
  (exists unit cityName,
     is_unit unit /\ validate cityName = None
     /\ url = weather_url API_TOKEN cityName unit
     /\ forall o, snd (step st (Settle i o)) =
                  match axios_settle o with
                  | Some _ => [forecast_url API_TOKEN cityName unit]
                  | None => []
                  end)
  \/ (exists unit cityName,
        is_unit unit /\ validate cityName = None
        /\ url = forecast_url API_TOKEN cityName unit
        /\ forall o, snd (step st (Settle i o)) = []).
Proof.
  intros Hr Hi. destruct (reachable_pending st Hr) as [_ Hpend].
  pose proof (Forall_lookup_1 _ _ _ _ Hpend Hi) as Hk.
  inversion Hk as [u c Hunit Hv|u c r1 Hunit Hv]; subst.
  - left. exists u, c. repeat split; try assumption.
    intros o. unfold step, step_with. rewrite Hi. unfold afterCurrent.
    destruct (axios_settle o); reflexivity.
  - right. exists u, c. repeat split; try assumption.
    intros o. unfold step, step_with. rewrite Hi.
    pose proof (advance_afterForecast_done r1 (axios_settle o) (hooks st)) as Hd.
    destruct (advance _ (hooks st)) as [h p]. cbn in Hd. subst p. reflexivity.
Qed.

Lemma forecast_request_matches_its_current_request_witness :
  (exists unit cityName,
     is_unit unit /\ validate cityName = None
     /\ weather_url API_TOKEN london metric = weather_url API_TOKEN cityName unit
     /\ forall o, snd (step london_in_flight (Settle 0 o)) =
                  match axios_settle o with
                  | Some _ => [forecast_url API_TOKEN cityName unit]
                  | None => []
                  end)
  \/ (exists unit cityName,
        is_unit unit /\ validate cityName = None
        /\ weather_url API_TOKEN london metric = forecast_url API_TOKEN cityName unit
        /\ forall o, snd (step london_in_flight (Settle 0 o)) = []).
Proof.
  exact (forecast_request_matches_its_current_request london_in_flight 0
           (weather_url API_TOKEN london metric)
           (afterCurrent API_TOKEN metric london)
           (reachable_run initial _ reachable_initial) eq_refl).
Defined.

(** ** Overlapping submissions *)

(** X10: when two handlers wait for their forecasts, the snapshot that
    stays is the one of the response that arrives last, not the one of the
    later submission: the handler at the lower index was submitted first,
    and its snapshot replaces the newer one when its response comes
    second. *)
Theorem last_response_wins (st : AppState) (i j : nat) (urlA urlB : jsstring)
    (rA rB : AxiosResponse) (oA oB : outcome) (fA fB : AxiosResponse)
    (dA dB : list json) (cA cB : Location) :
  i < j ->
  inflight st !! i = Some (urlA, afterForecast rA) ->
  inflight st !! j = Some (urlB, afterForecast rB) ->
  axios_settle oA = Some fA -> dailyData_of fA = Some dA -> coord_of rA = Some cA ->
  axios_settle oB = Some fB -> dailyData_of fB = Some dB -> coord_of rB = Some cB ->
  hooks (fst (run st [Settle j oB; Settle i oA])) =
    {| weather := Some {| now := data rA; future := dA |};
       location := cA; fetchError := [] |}
  /\ hooks (fst (run st [Settle i oA; Settle (j - 1) oB])) =
    {| weather := Some {| now := data rB; future := dB |};
       location := cB; fetchError := [] |}.
Proof.
  intros Hij Hi Hj HoA HdA HcA HoB HdB HcB. unfold run. split.
  - rewrite run_with_cons.
    rewrite (step_Settle_forecast_ok API_TOKEN st j urlB oB rB fB dB cB Hj HoB HdB HcB).
    cbn [fst]. rewrite run_with_cons.
    erewrite (step_Settle_forecast_ok API_TOKEN _ i urlA oA rA fA dA cA);
      [reflexivity | | exact HoA | exact HdA | exact HcA].
    cbn [inflight]. rewrite list_lookup_delete_lt by exact Hij. exact Hi.
  - rewrite run_with_cons.
    rewrite (step_Settle_forecast_ok API_TOKEN st i urlA oA rA fA dA cA Hi HoA HdA HcA).
    cbn [fst]. rewrite run_with_cons.
    erewrite (step_Settle_forecast_ok API_TOKEN _ (j - 1) urlB oB rB fB dB cB);
      [reflexivity | | exact HoB | exact HdB | exact HcB].
    cbn [inflight]. rewrite list_lookup_delete_ge by lia.
    replace (S (j - 1)) with j by lia. exact Hj.
Qed.

Lemma last_response_wins_witness :
  weather (hooks (fst (run two_forecasts_in_flight
                         [Settle 1 (Response 200 paris_forecast);
                          Settle 0 (Response 200 london_forecast)]))) =
  Some {| now := london_now; future := [forecast_entry 10; forecast_entry 9] |}.
Proof.
  pose proof (last_response_wins two_forecasts_in_flight 0 1
    (forecast_url API_TOKEN london metric) (forecast_url API_TOKEN paris metric)
    {| data := london_now |} {| data := paris_now |}
    (Response 200 london_forecast) (Response 200 paris_forecast)
    {| data := london_forecast |} {| data := paris_forecast |}
    [forecast_entry 10; forecast_entry 9]
    [dated_entry "2025-06-01 00:00:00" 15; dated_entry "2025-06-02 00:00:00" 17]
    {| lat := Some (num 515085 10000); lon := Some (num (-1257) 10000) |}
    {| lat := Some (num 488534 10000); lon := Some (num 23488 10000) |}
    (le_n 1) eq_refl eq_refl eq_refl eq_refl eq_refl eq_refl eq_refl eq_refl) as [H _].
  rewrite H. reflexivity.
Defined.

(** ** Responses that are not what the handler expects *)

Lemma fetch_forecast_settled token st o1 o2 r1 :
  falsy token = false ->
  validate (values_cityName (formik st)) = None ->
  axios_settle o1 = Some r1 ->
  run_with token st [Submit; Settle (length (inflight st)) o1;
                     Settle (length (inflight st)) o2] =
  ({| unit := unit st;
      hooks := fst (advance (afterForecast r1 (axios_settle o2)) (hooks st));
      formik := {| values_cityName := values_cityName (formik st);
                   errors_cityName := None |};
      inflight := inflight st |},
   [weather_url token (values_cityName (formik st)) (unit st);
    forecast_url token (values_cityName (formik st)) (unit st)]).
Proof.
  intros Ht Hv Ho1.
  change [Submit; Settle (length (inflight st)) o1; Settle (length (inflight st)) o2]
    with ((Submit :: repeat ToggleClick 0
           ++ Settle (length (inflight st)) o1 :: repeat ToggleClick 0)
          ++ [Settle (length (inflight st)) o2]).
  rewrite run_with_app, (fetch_current_fulfilled token st Ht Hv 0 0 o1 r1 Ho1).
  cbn [fst snd Nat.iter nat_rect run_with step_with inflight hooks unit formik].
  rewrite list_lookup_middle by reflexivity.
  pose proof (advance_afterForecast_done r1 (axios_settle o2) (hooks st)) as Hd.
  destruct (advance (afterForecast r1 (axios_settle o2)) (hooks st)) as [h p].
  cbn [snd] in Hd. subst p. rewrite delete_middle, app_nil_r. reflexivity.
Qed.

Lemma coord_of_throws (r : AxiosResponse) :
  coord_of r = None <->
  match member (Some (data r)) (lit "coord") with
  | None | Some None | Some (Some JNull) => True
  | Some (Some _) => False
  end.
Proof.
  unfold coord_of.
  destruct (member (Some (data r)) (lit "coord")) as [[[| | | | |]|]|];
    cbn; split; intros H; try easy; try discriminate.
Qed.

(** X11: when both requests succeed but the body of the current
    conditions is [null] or has no [coord] (or a [null] one), the snapshot
    is replaced all the same, the stored coordinates stay those of the
    previous lookup, and the failure message is set: the new snapshot and
    "Couldn't retrieve data" are displayed together. *)
Theorem missing_coord_replaces_snapshot_and_sets_error (st : AppState)
    (o1 o2 : outcome) (r1 r2 : AxiosResponse) (dailyData : list json) :
  validate (values_cityName (formik st)) = None ->
  axios_settle o1 = Some r1 ->
  axios_settle o2 = Some r2 ->
  dailyData_of r2 = Some dailyData ->
  match member (Some (data r1)) (lit "coord") with
  | None | Some None | Some (Some JNull) => True
  | Some (Some _) => False
  end ->
  hooks (fst (run st [Submit; Settle (length (inflight st)) o1;
                      Settle (length (inflight st)) o2])) =
  {| weather := Some {| now := data r1; future := dailyData |};
     location := location (hooks st);
     fetchError := MSG_FETCH |}.
Proof.
  intros Hv Ho1 Ho2 Hd Hc. apply coord_of_throws in Hc. unfold run.
  rewrite (fetch_forecast_settled API_TOKEN st o1 o2 r1 API_TOKEN_present Hv Ho1).
  rewrite Ho2, (advance_afterForecast_no_coord r1 r2 dailyData _ Hd Hc).
  reflexivity.
Qed.

Lemma missing_coord_replaces_snapshot_and_sets_error_witness :
  hooks (fst (run (typed paris) [Submit; Settle 0 (Response 200 nowhere_now);
                                 Settle 0 (Response 200 paris_forecast)])) =
  {| weather :=
       Some {| now := nowhere_now;
               future := [dated_entry "2025-06-01 00:00:00" 15;
                          dated_entry "2025-06-02 00:00:00" 17] |};
     location := location (hooks initial);
     fetchError := MSG_FETCH |}.
Proof.
  exact (missing_coord_replaces_snapshot_and_sets_error (typed paris)
           (Response 200 nowhere_now) (Response 200 paris_forecast)
           {| data := nowhere_now |} {| data := paris_forecast |}
           [dated_entry "2025-06-01 00:00:00" 15; dated_entry "2025-06-02 00:00:00" 17]
           eq_refl eq_refl eq_refl eq_refl I).
Defined.

Lemma advance_afterForecast_no_list r1 r2 h :
  dailyData_of r2 = None ->
  advance (afterForecast r1 (Some r2)) h =
  ({| weather := weather h; location := location h; fetchError := MSG_FETCH |}, None).
Proof. intros Hd. unfold afterForecast. rewrite Hd. reflexivity. Qed.

Lemma dailyData_of_throws (r : AxiosResponse) :
  dailyData_of r = None <->
  forall items, member (Some (data r)) (lit "list") <> Some (Some (JArr items)).
Proof.
  split.
  - intros Hd items Hm.
    assert (dailyData_of r = Some (sampler items)) as E
      by (apply dailyData_of_sampler; eauto).
    congruence.
  - intros H. destruct (dailyData_of r) as [d|] eqn:E; [|reflexivity].
    apply dailyData_of_sampler in E as (items & Hm & _).
    destruct (H items Hm).
Qed.

(** X12: a forecast response with a 2xx status whose body has no array
    under [list] counts as a failure: the failure message is set and the
    weather and the location stay as they were, although the current
    conditions had arrived. *)
Theorem forecast_without_list_is_a_failure (st : AppState)
    (o1 o2 : outcome) (r1 r2 : AxiosResponse) :
  validate (values_cityName (formik st)) = None ->
  axios_settle o1 = Some r1 ->
  axios_settle o2 = Some r2 ->
  (forall items, member (Some (data r2)) (lit "list") <> Some (Some (JArr items))) ->
  hooks (fst (run st [Submit; Settle (length (inflight st)) o1;
                      Settle (length (inflight st)) o2])) =
  {| weather := weather (hooks st);
     location := location (hooks st);
     fetchError := MSG_FETCH |}.
Proof.
  intros Hv Ho1 Ho2 Hd. apply dailyData_of_throws in Hd. unfold run.
  rewrite (fetch_forecast_settled API_TOKEN st o1 o2 r1 API_TOKEN_present Hv Ho1).
  rewrite Ho2, (advance_afterForecast_no_list r1 r2 _ Hd). reflexivity.
Qed.

Lemma forecast_without_list_is_a_failure_witness :
  hooks (fst (run (typed paris) [Submit; Settle 0 (Response 200 paris_now);
                                 Settle 0 (Response 200 (JStr (lit "<html>")))])) =
  {| weather := None; location := location (hooks initial); fetchError := MSG_FETCH |}.
Proof.
  apply (forecast_without_list_is_a_failure (typed paris)
           (Response 200 paris_now) (Response 200 (JStr (lit "<html>")))
           {| data := paris_now |} {| data := JStr (lit "<html>") |}
           eq_refl eq_refl eq_refl).
  intros items. discriminate.
Defined.

(** ** Sampling, once more *)

(** X13: the sample depends on the entries at the indices 0, 8, 16, ...
    and on nothing else: two forecast lists have the same sample exactly
    when they agree at every multiple of eight. *)
Theorem sampler_reads_multiples_of_eight_only {A : Type} (l l' : list A) :
  sampler l = sampler l' <-> forall i, l !! (i * 8) = l' !! (i * 8).
Proof.
  split.
  - intros H i. rewrite <- !sampler_lookup, H. reflexivity.
  - intros H. apply list_eq. intros i. rewrite !sampler_lookup. apply H.
Qed.

(** ** The chart and the snapshot block *)

Lemma chart_data_lookup future points :
  chart_data future = Some points ->
  length points = length future
  /\ forall i, points !! i = future !! i ≫= chart_point.
Proof.
  revert points; induction future as [|item rest IH]; intros points; cbn [chart_data].
  - intros [= <-]. split; [reflexivity | intros i; reflexivity].
  - destruct (chart_point item) as [p|] eqn:Hp; [|discriminate].
    destruct (chart_data rest) as [ps|]; [|discriminate].
    intros [= <-]. destruct (IH ps eq_refl) as [Hlen Hnth].
    split; [cbn; rewrite Hlen; reflexivity|].
    intros [|i]; cbn; [rewrite Hp; reflexivity | apply Hnth].
Qed.

Lemma chart_data_throws future :
  chart_data future = None <->
  exists i item, future !! i = Some item /\ chart_point item = None.
Proof.
  induction future as [|item rest IH]; cbn [chart_data].
  - split; [discriminate | intros (i & x & H & _); discriminate].
  - destruct (chart_point item) as [p|] eqn:Hp.
    + destruct (chart_data rest) as [ps|].
      * split; [discriminate|]. intros ([|i] & x & Hx & Hnone); cbn in Hx.
        -- congruence.
        -- assert (Some ps = None) as E by (apply (proj2 IH); eauto).
           discriminate.
      * split; [|reflexivity]. intros _.
        destruct (proj1 IH eq_refl) as (i & x & Hx & Hnone).
        exists (S i), x. auto.
    + split; [|reflexivity]. intros _. exists 0, item. auto.
Qed.

(** X14: the chart has one point for each day sampled: ceil(N/8) points
    for a forecast of N entries, point [i] built from entry [8 * i].  The
    render throws exactly when one of those entries is [null] or has no
    [main]; the entries in between are never looked at. *)
Theorem chart_plots_every_eighth_entry (items : list json) :
  (chart_data (sampler items) = None <->
   exists i item, items !! (i * 8) = Some item /\ chart_point item = None)
  /\ (forall points, chart_data (sampler items) = Some points ->
      length points = (length items + 7) / 8
      /\ forall i, points !! i = items !! (i * 8) ≫= chart_point).
Proof.
  split.
  - rewrite chart_data_throws.
    split; intros (i & item & Hi & Hnone); exists i, item;
      [rewrite <- sampler_lookup | rewrite sampler_lookup]; auto.
  - intros points Hp. destruct (chart_data_lookup _ _ Hp) as [Hlen Hnth].
    split; [rewrite Hlen; apply sampler_length|].
    intros i. rewrite Hnth, sampler_lookup. reflexivity.
Qed.

Lemma chart_plots_every_eighth_entry_witness :
  length [ {| point_dt_txt := Some (JStr (lit "2025-06-01 00:00:00"));
              point_temp := Some (num 15 1) |};
           {| point_dt_txt := Some (JStr (lit "2025-06-02 00:00:00"));
              point_temp := Some (num 17 1) |} ] = (10 + 7) / 8.
Proof.
  exact (proj1 (proj2 (chart_plots_every_eighth_entry
    [dated_entry "2025-06-01 00:00:00" 15; JNull; JNull; JNull;
     JNull; JNull; JNull; JNull;
     dated_entry "2025-06-02 00:00:00" 17; JNull]) _ eq_refl)).
Defined.



(** X16: a fetch can succeed and break the view.  When both requests
    succeed and the handler stores the snapshot, but a chain of the header
    throws (no [weather[0]] or no [main] in the current conditions) or a
    sampled forecast entry is [null] or has no [main], the error text is
    cleared and the render of the block throws: the handler's [catch] does
    not see it. *)
Theorem successful_fetch_can_break_the_view (st : AppState) (o1 o2 : outcome)
    (r1 r2 : AxiosResponse) (dailyData : list json) (coord : Location) :
  validate (values_cityName (formik st)) = None ->
  axios_settle o1 = Some r1 ->
  axios_settle o2 = Some r2 ->
  dailyData_of r2 = Some dailyData ->
  coord_of r1 = Some coord ->
  header_of (data r1) = None \/ chart_data dailyData = None ->
  render_snapshot (fst (run st [Submit; Settle (length (inflight st)) o1;
                                Settle (length (inflight st)) o2])) = RenderError
  /\ fetchError (hooks (fst (run st [Submit; Settle (length (inflight st)) o1;
                                     Settle (length (inflight st)) o2]))) = [].
Proof.
  intros Hv Ho1 Ho2 Hd Hc Hbad. unfold run.
  rewrite (fetch_forecast_settled API_TOKEN st o1 o2 r1 API_TOKEN_present Hv Ho1).
  rewrite Ho2, (advance_afterForecast_ok r1 r2 dailyData coord _ Hd Hc).
  split; [|reflexivity].
  unfold render_snapshot. cbn.
  destruct Hbad as [-> | ->]; [reflexivity|].
  destruct (header_of (data r1)); reflexivity.
Qed.

Lemma successful_fetch_can_break_the_view_witness :
  render_snapshot (fst (run (typed london) [Submit; Settle 0 (Response 200 london_now);
                                            Settle 0 (Response 200 london_forecast)]))
  = RenderError.
Proof.
  exact (proj1 (successful_fetch_can_break_the_view (typed london)
           (Response 200 london_now) (Response 200 london_forecast)
           {| data := london_now |} {| data := london_forecast |}
           _ _ eq_refl eq_refl eq_refl eq_refl eq_refl (or_introl eq_refl))).
Defined.

(** ** The error text and the key over a whole run *)

(** X17: the text under the toggle is the failure message or nothing:
    no other text is ever shown there, whatever the user and the network
    do. *)
Theorem only_the_failure_message_is_shown (evs : list event) :
  fetchErrorText (render (fst (run initial evs))) = None
  \/ fetchErrorText (render (fst (run initial evs))) = Some MSG_FETCH.
Proof.
  destruct (reachable_invariant _ (reachable_run initial evs reachable_initial))
    as [[E|E] _]; unfold render; cbn [fetchErrorText]; rewrite E;
    [left | right]; reflexivity.
Qed.

Lemma no_key_step token st ev :
  falsy token = true ->
  inflight st = [] ->
  weather (hooks st) = None ->
  inflight (fst (step_with token st ev)) = []
  /\ weather (hooks (fst (step_with token st ev))) = None
  /\ snd (step_with token st ev) = [].
Proof.
  intros Ht Hl Hw. destruct ev as [text| | |i o]; cbn [step_with].
  - auto.
  - destruct (validate (values_cityName (formik st))); [auto|].
    rewrite advance_onSubmit_no_key by exact Ht. cbn. rewrite Hl. auto.
  - auto.
  - rewrite Hl. cbn. auto.
Qed.

(** X18: with a key that is absent, the component never sends a request
    and never shows a snapshot, however often the form is submitted. *)
Theorem no_key_no_network (token : option jsstring) (evs : list event) :
  falsy token = true ->
  snd (run_with token initial evs) = []
  /\ weather (hooks (fst (run_with token initial evs))) = None
  /\ render_snapshot (fst (run_with token initial evs)) = NoSnapshot.
Proof.
  intros Ht.
  assert (forall st, inflight st = [] -> weather (hooks st) = None ->
            snd (run_with token st evs) = []
            /\ weather (hooks (fst (run_with token st evs))) = None) as H.
  { induction evs as [|ev evs IH]; intros st Hl Hw; [auto|].
    destruct (no_key_step token st ev Ht Hl Hw) as (Hl1 & Hw1 & Hs1).
    rewrite run_with_cons. cbn [fst snd]. rewrite Hs1.
    apply IH; assumption. }
  destruct (H initial eq_refl eq_refl) as [Hs Hw].
  split; [exact Hs|]. split; [exact Hw|].
  unfold render_snapshot. rewrite Hw. reflexivity.
Qed.

Lemma no_key_no_network_witness :
  snd (run_with None initial [Change london; Submit; Change paris; Submit]) = [].
Proof.
  exact (proj1 (no_key_no_network None [Change london; Submit; Change paris; Submit]
                  eq_refl)).
Defined.
